(** * yt-dlp-wrapper: a shallow embedding of the download orchestrator

    The development follows [yt-dlp-wrapper.py]: the platform classifier
    ([detect_platform]), the Premium format scan ([check_premium_formats]),
    the command assembled by [download_video] ([base_cmd]) and the fallback
    retries of [download_video] itself, run against an explicit model of the
    processes the script starts.

    Python [str] values are modelled as [string] (sequences of 8-bit
    characters); the character classes [\d] and [\s] and [str.lower] are
    taken on the ASCII range, where every constant of the script lives. *)

From Stdlib Require Import String Ascii List ZArith NArith Lia Bool DecimalString.
Import ListNotations.
Open Scope string_scope.
Open Scope list_scope.

(** String concatenation, kept apart from the [++] of lists. *)
Infix "+++" := String.append (at level 60, right associativity).

(* ================================================================== *)
(** ** Python string primitives *)
(* ================================================================== *)

(** [sub in s] *)
Fixpoint contains (sub s : string) : bool :=
  prefix sub s ||
  match s with
  | EmptyString => false
  | String _ s' => contains sub s'
  end.

(** [s.startswith(p)] *)
Definition startswith (s p : string) : bool := prefix p s.

Definition to_lower (c : ascii) : ascii :=
  let n := nat_of_ascii c in
  if (65 <=? n)%nat && (n <=? 90)%nat then ascii_of_nat (n + 32) else c.

(** [s.lower()] *)
Fixpoint lower (s : string) : string :=
  match s with
  | EmptyString => EmptyString
  | String c s' => String (to_lower c) (lower s')
  end.

(** Truth value of a [str]: only the empty string is false. *)
Definition truthy (s : string) : bool :=
  match s with EmptyString => false | _ => true end.

(** [o == s] for an [Optional[str]] and a string. *)
Definition opt_eqb (o : option string) (s : string) : bool :=
  match o with Some s' => String.eqb s' s | None => false end.

(** Truth value of an [Optional[str]]: [None] and [''] are false. *)
Definition truthy_opt (o : option string) : bool :=
  match o with None => false | Some s => truthy s end.

(** [s.split(sep)] for a one-character separator: the accumulator [cur]
    holds the characters of the current field. *)
Fixpoint split_acc (sep : ascii) (cur : string) (s : string) : list string :=
  match s with
  | EmptyString => [cur]
  | String c s' =>
      if Ascii.eqb c sep then cur :: split_acc sep EmptyString s'
      else split_acc sep (cur +++ String c EmptyString) s'
  end.

Definition str_split (sep : ascii) (s : string) : list string :=
  split_acc sep EmptyString s.

Definition newline : ascii := ascii_of_nat 10.

(** [\d] *)
Definition is_digit (c : ascii) : bool :=
  let n := nat_of_ascii c in (48 <=? n)%nat && (n <=? 57)%nat.

(** [\s]: the ASCII characters for which [str.isspace] holds. *)
Definition is_space (c : ascii) : bool :=
  let n := nat_of_ascii c in
  ((9 <=? n)%nat && (n <=? 13)%nat) || ((28 <=? n)%nat && (n <=? 32)%nat).

(** The longest run of digits at the start of [s], and what follows it:
    what a greedy [\d+] consumes. *)
Fixpoint span_digits (s : string) : string * string :=
  match s with
  | String c s' =>
      if is_digit c then
        let '(ds, rest) := span_digits s' in (String c ds, rest)
      else (EmptyString, s)
  | EmptyString => (EmptyString, EmptyString)
  end.

(** [int(ds)] for a string of decimal digits. *)
Definition digit_value (c : ascii) : N := N.of_nat (nat_of_ascii c - 48).

Fixpoint int_of_digits_acc (acc : N) (ds : string) : N :=
  match ds with
  | EmptyString => acc
  | String c ds' => int_of_digits_acc (10 * acc + digit_value c)%N ds'
  end.

Definition int_of_digits (ds : string) : N := int_of_digits_acc 0%N ds.

(** [str(n)] for an [int]. *)
Definition str_of_int (z : Z) : string := NilZero.string_of_int (Z.to_int z).

(* ================================================================== *)
(** ** Configuration constants *)
(* ================================================================== *)

Definition DEFAULT_FORMAT_SELECTOR : string :=
  "bestvideo[height<=2160][vcodec~='^(av01|vp9|avc1)']+bestaudio/" +++
  "bestvideo[height<=1440][vcodec~='^(av01|vp9|avc1)']+bestaudio/" +++
  "bestvideo[height<=1080][vcodec~='^(av01|vp9|avc1)']+bestaudio/" +++
  "bestvideo[height<=720][vcodec~='^(av01|vp9|avc1)']+bestaudio/" +++
  "best[ext=mp4]/best".

Definition YOUTUBE_CLIENTS : list string :=
  ["web"; "android"; "tv"; "tv_downgraded"; "mweb"; "web_music"; "android_music"].

(** The platform tags ['youtube'], ['x'] and ['other']. *)
Inductive Platform := youtube | x_twitter | other.

Definition Platform_eqb (p q : Platform) : bool :=
  match p, q with
  | youtube, youtube | x_twitter, x_twitter | other, other => true
  | _, _ => false
  end.

(** The dict keeps insertion order, which is the order of iteration. *)
Definition SUPPORTED_PLATFORMS : list (Platform * list string) :=
  [ (youtube, ["youtube.com"; "youtu.be"]);
    (x_twitter, ["twitter.com"; "x.com"]);
    (other, []) ].

(* ================================================================== *)
(** ** Platform classifier: [VideoDownloader.detect_platform] *)
(* ================================================================== *)

(** The loop over [SUPPORTED_PLATFORMS.items()]: the first platform one of
    whose domains occurs in [url_lower]; ['other'] when the loop ends. *)
Fixpoint detect_in (table : list (Platform * list string)) (url_lower : string)
  : Platform :=
  match table with
  | [] => other
  | (platform, domains) :: table' =>
      if existsb (fun domain => contains domain url_lower) domains
      then platform
      else detect_in table' url_lower
  end.

Definition detect_platform (url : string) : Platform :=
  detect_in SUPPORTED_PLATFORMS (lower url).

(* ================================================================== *)
(** ** Format strategy: the scan of [check_premium_formats] *)
(* ================================================================== *)

(** [re.search(r'^(\d+)\s+', line)]: group 1.  The greedy [\d+] takes the
    whole leading run of digits, which must be non-empty and followed by
    one white-space character at least. *)
Definition premium_match (line : string) : option string :=
  match span_digits line with
  | (EmptyString, _) => None
  | (ds, String c _) => if is_space c then Some ds else None
  | (_, EmptyString) => None
  end.

(** [(\d+)x(\d+)] anchored at the start of [s]: group 2. *)
Definition res_match_here (s : string) : option string :=
  match span_digits s with
  | (EmptyString, _) => None
  | (_, String c rest) =>
      if Ascii.eqb c "x" then
        match span_digits rest with
        | (EmptyString, _) => None
        | (h, _) => Some h
        end
      else None
  | (_, EmptyString) => None
  end.

(** [re.search(r'(\d+)x(\d+)', line)]: group 2 of the leftmost match. *)
Fixpoint res_match (line : string) : option string :=
  match res_match_here line with
  | Some h => Some h
  | None =>
      match line with
      | EmptyString => None
      | String _ line' => res_match line'
      end
  end.

(** [height = int(res_match.group(2)) if res_match else 0] *)
Definition line_height (line : string) : N :=
  match res_match line with
  | Some h => int_of_digits h
  | None => 0%N
  end.

(** One iteration of the loop over the lines of the listing; the state is
    [(best_premium_id, best_height)]. *)
Definition premium_step (best : option string * N) (line : string)
  : option string * N :=
  if negb (contains "Premium" line) then best
  else
    match premium_match line with
    | None => best
    | Some format_id =>
        let height := line_height line in
        if (snd best <? height)%N then (Some format_id, height) else best
    end.

Definition premium_scan (output : string) : option string * N :=
  fold_left premium_step (str_split newline output) (None, 0%N).

(** The part of [check_premium_formats] after the listing was obtained. *)
Definition best_premium_format (output : string) : option string :=
  match fst (premium_scan output) with
  | Some best_premium_id =>
      if truthy best_premium_id then Some (best_premium_id +++ "+bestaudio/best")
      else None
  | None => None
  end.

(* ================================================================== *)
(** ** Command builder: lines 360-440 of [download_video] *)
(* ================================================================== *)

(** The keyword arguments of [download_video].  [extra_args] is the list
    after the [None] default was replaced by [[]]. *)
Record Request := {
  url : string;
  extra_args : list string;
  format_selector : option string;
  youtube_client : option string;
  try_sabr : bool;
  try_fallback_clients : bool;
  prefer_premium : bool;
  sponsorblock_mark : option string;
  sponsorblock_remove : option string;
  embed_chapters : bool;
  sleep_interval : option Z;
  pot_provider_mode : option string;
  pot_provider_url : option string;
  pot_provider_script : option string
}.

Definition extractor_flag : string := "--extractor-args".

(** [for i, arg in enumerate(l): if p(arg): l[i] = f(arg); break] *)
Fixpoint update_first (p : string -> bool) (f : string -> string)
  (l : list string) : list string :=
  match l with
  | [] => []
  | arg :: l' => if p arg then f arg :: l' else arg :: update_first p f l'
  end.

(** [l[i] = f(l[i])]; the builder only uses an index it found in [l]. *)
Fixpoint update_nth (i : nat) (f : string -> string) (l : list string)
  : list string :=
  match l, i with
  | [], _ => []
  | a :: l', O => f a :: l'
  | a :: l', S i' => a :: update_nth i' f l'
  end.

(** The first index [i > 0] with [l[i-1] == '--extractor-args'] and
    ['youtube' in l[i]]; [prev] is [l[i-1]]. *)
Fixpoint existing_yt_args_from (i : nat) (prev : string) (rest : list string)
  : option nat :=
  match rest with
  | [] => None
  | arg :: rest' =>
      if String.eqb prev extractor_flag && contains "youtube" arg then Some i
      else existing_yt_args_from (S i) arg rest'
  end.

Definition existing_yt_args (base_cmd : list string) : option nat :=
  match base_cmd with
  | [] => None
  | first :: rest => existing_yt_args_from 1 first rest
  end.

Definition base_flags (cookies_browser fs output_dir : string) : list string :=
  [ "yt-dlp";
    "--cookies-from-browser"; cookies_browser;
    "-f"; fs;
    "--write-auto-sub";
    "--sub-lang"; "en.*";
    "--convert-subs"; "srt";
    "--ignore-errors";
    "-P"; output_dir;
    "--no-mtime";
    "--embed-metadata" ].

Definition add_embed_chapters (r : Request) (base_cmd : list string) :=
  if embed_chapters r then base_cmd ++ ["--embed-chapters"] else base_cmd.

Definition opt_flag (flag : string) (o : option string) : list string :=
  match o with
  | Some v => if truthy v then [flag; v] else []
  | None => []
  end.

(** SponsorBlock options, inside [if platform == 'youtube']. *)
Definition add_sponsorblock (platform : Platform) (r : Request)
  (base_cmd : list string) : list string :=
  match platform with
  | youtube =>
      base_cmd ++ opt_flag "--sponsorblock-mark" (sponsorblock_mark r)
               ++ opt_flag "--sponsorblock-remove" (sponsorblock_remove r)
  | _ => base_cmd
  end.

(** [if sleep_interval:], outside every platform test. *)
Definition sleep_flags (r : Request) : list string :=
  match sleep_interval r with
  | Some n => if (n =? 0)%Z then [] else ["--sleep-interval"; str_of_int n]
  | None => []
  end.

Definition add_sleep_interval (r : Request) (base_cmd : list string) :=
  base_cmd ++ sleep_flags r.

Definition add_youtube_client (r : Request) (base_cmd : list string) :=
  match youtube_client r with
  | Some c =>
      if truthy c
      then base_cmd ++ [extractor_flag; "youtube:player-client=" +++ c]
      else base_cmd
  | None => base_cmd
  end.

Definition formats_arg : string := "youtube:formats=duplicate".

Definition add_sabr (r : Request) (base_cmd : list string) :=
  if try_sabr r then
    if existsb (fun arg => startswith arg "--extractor-args") base_cmd
    then update_first (fun arg => startswith arg "youtube:player-client=")
                      (fun arg => arg +++ ";" +++ formats_arg) base_cmd
    else base_cmd ++ [extractor_flag; formats_arg]
  else base_cmd.

Definition pot_args (r : Request) : list string :=
  match pot_provider_url r with
  | Some u => if truthy u then ["youtubepot-bgutilhttp:base_url=" +++ u] else []
  | None => []
  end ++
  match pot_provider_script r with
  | Some s => if truthy s then ["youtubepot-bgutilscript:script_path=" +++ s] else []
  | None => []
  end.

(** The body of [for pot_arg in pot_args]; [existing] was computed once,
    before the loop. *)
Definition add_pot_arg (existing : option nat) (base_cmd : list string)
  (pot_arg : string) : list string :=
  match existing with
  | Some i => update_nth i (fun old => old +++ ";" +++ pot_arg) base_cmd
  | None => base_cmd ++ [extractor_flag; pot_arg]
  end.

Definition add_pot_args (r : Request) (base_cmd : list string) :=
  match pot_args r with
  | [] => base_cmd
  | args => fold_left (add_pot_arg (existing_yt_args base_cmd)) args base_cmd
  end.

Definition add_youtube_args (platform : Platform) (r : Request)
  (base_cmd : list string) : list string :=
  match platform with
  | youtube => add_pot_args r (add_sabr r (add_youtube_client r base_cmd))
  | _ => base_cmd
  end.

(** [base_cmd] as it is handed to [subprocess.run]. *)
Definition base_cmd (cookies_browser : string) (platform : Platform)
  (fs output_dir : string) (r : Request) : list string :=
  add_youtube_args platform r
    (add_sleep_interval r
      (add_sponsorblock platform r
        (add_embed_chapters r (base_flags cookies_browser fs output_dir))))
  ++ extra_args r ++ [url r].

(* ================================================================== *)
(** ** Processes, probes and the state of a run *)
(* ================================================================== *)

(** What a started process does: it ends with a return code, having
    written [stdout] and [stderr], or it outlives the timeout. *)
Inductive ProcResult :=
| Exited (returncode : Z) (stdout stderr : string)
| TimedOut.

(** What [subprocess.run(..., check=True, timeout=...)] hands to the
    caller: a [CompletedProcess], or one of the two exceptions the script
    catches. *)
Inductive RunOutcome :=
| Completed (stdout : option string)
| CalledProcessError (returncode : Z) (stderr : option string)
| TimeoutExpired.

(** [subprocess.run] only pipes the streams of the child when the caller
    asks for it ([capture_output=True]); otherwise the child writes to the
    terminal and the [stdout] and [stderr] attributes of the result, and
    of a [CalledProcessError], are [None]. *)
Definition subprocess_run (capture_output : bool) (p : ProcResult) : RunOutcome :=
  match p with
  | TimedOut => TimeoutExpired
  | Exited returncode out err =>
      if (returncode =? 0)%Z
      then Completed (if capture_output then Some out else None)
      else CalledProcessError returncode (if capture_output then Some err else None)
  end.

(** The decoded metadata: the three keys [download_video] reads. *)
Record Info := {
  title : option string;
  upload_date : option string;
  release_date : option string
}.

Definition empty_info : Info :=
  {| title := None; upload_date := None; release_date := None |}.

(** The world outside the script.  Probes observe it; running yt-dlp or
    creating the output directory may change it. *)
Record Env (World : Type) := {
  (** [sys.version_info]: major and minor *)
  sys_version_info : nat * nat;
  (** [sys.executable] *)
  sys_executable : string;
  (** [shutil.which(name)] finds something *)
  which : World -> string -> bool;
  (** [Path(p).expanduser().exists()] *)
  path_exists : World -> string -> bool;
  (** return code of the 5-second package query, [None] when it raises *)
  run_probe : World -> list string -> option Z;
  (** [sock.connect_ex((host, port))], [None] when it raises *)
  connect_ex : World -> string -> Z -> option Z;
  (** a command line given to the shell by [_run_command] *)
  run_shell : World -> string -> ProcResult * World;
  (** the argument vector given to [subprocess.run] by [download_video] *)
  run_argv : World -> list string -> ProcResult * World;
  (** [json.loads], [None] for [JSONDecodeError] *)
  json_loads : string -> option Info;
  (** [create_output_dir(title, date_str)] taken as a whole: the directory,
      or [None] when it raises [YtDlpWrapperError] *)
  create_output_dir : World -> string -> option string -> option string * World
}.

Arguments sys_version_info {World}.
Arguments sys_executable {World}.
Arguments which {World}.
Arguments path_exists {World}.
Arguments run_probe {World}.
Arguments connect_ex {World}.
Arguments run_shell {World}.
Arguments run_argv {World}.
Arguments json_loads {World}.
Arguments create_output_dir {World}.

Inductive Exn := YtDlpWrapperError (msg : string).

(** Log records.  The [logger.info] lines inside the command assembly and
    the debug records only repeat the request and are left out. *)
Inductive Event :=
| BrowserNotFound (browser : string)
| NoJavaScriptRuntime
| PotPluginTip
| PotScriptMode
| PotServerReady
| PotServerNotDetected
| CommandTimedOut
| CommandFailed (returncode : Z) (stderr : option string)
| NoVideoInformation
| BadVideoInformation
| CheckingPremium
| NoFormatList
| NoPremiumFormats
| BestPremium (format_id : string) (height : N)
| DetectedPlatform (platform : Platform)
| UsingPremium (selector : string)
| FetchingMetadata
| OutputDirectory (dir : string)
| StartingDownload
| DownloadCompleted
| PoTokenRequired (plugin_installed : bool)
| SabrIssueDetected
| TryingFallbackClient (client : string)
| TryingSabr
| DownloadFailed (returncode : Z) (stderr : option string)
| DownloadTimedOut
| FatalError (e : Exn).

(** One call of [subprocess.run(base_cmd, ...)] in [download_video]. *)
Record Attempt := {
  argv : list string;
  outcome : RunOutcome
}.

Record State (World : Type) := {
  world : World;
  attempts : list Attempt;   (* download attempts so far, oldest first *)
  logs : list Event          (* log records so far, oldest first *)
}.

Arguments world {World}.
Arguments attempts {World}.
Arguments logs {World}.

(** Results of a computation: a value, an exception on its way up, or a
    recursion that went deeper than the fuel allows. *)
Inductive Result (A : Type) :=
| Ret (a : A)
| Raise (e : Exn)
| OutOfFuel.

Arguments Ret {A}.
Arguments Raise {A}.
Arguments OutOfFuel {A}.

Definition M (World A : Type) : Type := State World -> Result A * State World.

Definition ret {World A} (a : A) : M World A := fun st => (Ret a, st).

Definition raise {World A} (e : Exn) : M World A := fun st => (Raise e, st).

Definition out_of_fuel {World A} : M World A := fun st => (OutOfFuel, st).

Definition bind {World A B} (m : M World A) (f : A -> M World B) : M World B :=
  fun st =>
    match m st with
    | (Ret a, st') => f a st'
    | (Raise e, st') => (Raise e, st')
    | (OutOfFuel, st') => (OutOfFuel, st')
    end.

Declare Scope monad_scope.
Delimit Scope monad_scope with monad.
Notation "x <- m ;; k" := (bind m (fun x => k))
  (at level 61, m at next level, right associativity) : monad_scope.
Notation "m ;; k" := (bind m (fun _ => k))
  (at level 61, right associativity) : monad_scope.
Open Scope monad_scope.

Definition log {World} (e : Event) : M World unit :=
  fun st => (Ret tt, {| world := world st; attempts := attempts st;
                        logs := logs st ++ [e] |}).

(** A probe: it reads the world and leaves it as it is. *)
Definition observe {World A} (f : World -> A) : M World A :=
  fun st => (Ret (f (world st)), st).

(** A step that may change the world. *)
Definition act {World A} (f : World -> A * World) : M World A :=
  fun st =>
    let '(a, w) := f (world st) in
    (Ret a, {| world := w; attempts := attempts st; logs := logs st |}).

Definition record_attempt {World} (a : Attempt) : M World unit :=
  fun st => (Ret tt, {| world := world st; attempts := attempts st ++ [a];
                        logs := logs st |}).

(* ================================================================== *)
(** ** The methods of [VideoDownloader] *)
(* ================================================================== *)

Record VideoDownloader := { cookies_browser : string }.

Definition dquote : string := String (ascii_of_nat 34) EmptyString.

(** [f'yt-dlp --cookies-from-browser {self.cookies_browser} -j "{url}"'] *)
Definition metadata_cmd (self : VideoDownloader) (url : string) : string :=
  "yt-dlp --cookies-from-browser " +++ cookies_browser self +++
  " -j " +++ dquote +++ url +++ dquote.

(** [f'yt-dlp --cookies-from-browser {self.cookies_browser} -F "{url}"'] *)
Definition listing_cmd (self : VideoDownloader) (url : string) : string :=
  "yt-dlp --cookies-from-browser " +++ cookies_browser self +++
  " -F " +++ dquote +++ url +++ dquote.

(** [for ... : if attempt(client): return True], the loop over the
    fallback clients; [false] when the loop runs to its end. *)
Fixpoint try_clients {World} (attempt : string -> M World bool)
  (clients : list string) : M World bool :=
  match clients with
  | [] => ret false
  | client :: rest =>
      ok <- attempt client ;;
      if ok then ret true else try_clients attempt rest
  end.

(** [[arg for arg in extra_args if "--extractor-args" not in arg]] *)
Definition filtered_args (args : list string) : list string :=
  filter (fun arg => negb (contains "--extractor-args" arg)) args.

(** [[c for c in YOUTUBE_CLIENTS if c != youtube_client]] *)
Definition available_clients (client : option string) : list string :=
  filter (fun c => match client with
                   | Some c' => negb (String.eqb c c')
                   | None => true
                   end) YOUTUBE_CLIENTS.

(** The keyword arguments of the call in the loop over the fallback
    clients; [prefer_premium] is not passed and takes its default. *)
Definition fallback_request (r : Request) (fs client : string) : Request :=
  {| url := url r;
     extra_args := filtered_args (extra_args r);
     format_selector := Some fs;
     youtube_client := Some client;
     try_sabr := false;
     try_fallback_clients := false;
     prefer_premium := true;
     sponsorblock_mark := sponsorblock_mark r;
     sponsorblock_remove := sponsorblock_remove r;
     embed_chapters := embed_chapters r;
     sleep_interval := sleep_interval r;
     pot_provider_mode := pot_provider_mode r;
     pot_provider_url := pot_provider_url r;
     pot_provider_script := pot_provider_script r |}.

(** The keyword arguments of the last call, with SABR formats enabled. *)
Definition sabr_request (r : Request) (fs : string) : Request :=
  {| url := url r;
     extra_args := filtered_args (extra_args r);
     format_selector := Some fs;
     youtube_client :=
       Some (if truthy_opt (youtube_client r)
             then match youtube_client r with Some c => c | None => "web" end
             else "web");
     try_sabr := true;
     try_fallback_clients := false;
     prefer_premium := true;
     sponsorblock_mark := sponsorblock_mark r;
     sponsorblock_remove := sponsorblock_remove r;
     embed_chapters := embed_chapters r;
     sleep_interval := sleep_interval r;
     pot_provider_mode := pot_provider_mode r;
     pot_provider_url := pot_provider_url r;
     pot_provider_script := pot_provider_script r |}.

Definition po_token_phrases : list string :=
  ["PO Token"; "po_token"; "requires a GVS PO Token"].

Definition sabr_phrases : list string :=
  ["web client https formats require a GVS PO Token";
   "YouTube is forcing SABR streaming";
   "only SABR formats"].

(** [any(phrase in error_output for phrase in phrases)] *)
Definition any_phrase (phrases : list string) (error_output : string) : bool :=
  existsb (fun phrase => contains phrase error_output) phrases.

(** [e.stderr if e.stderr else ""] *)
Definition error_output_of (stderr : option string) : string :=
  match stderr with
  | Some s => if truthy s then s else EmptyString
  | None => EmptyString
  end.

Section Downloader.

Context {World : Type} (env : Env World).

Definition _validate_dependencies (self : VideoDownloader) : M World unit :=
  let '(major, minor) := sys_version_info env in
  if (major <? 3)%nat || ((major =? 3)%nat && (minor <? 10)%nat) then
    raise (YtDlpWrapperError "Python 3.10+ required. Please upgrade Python.")
  else
    found <- observe (fun w => which env w "yt-dlp") ;;
    if negb found then
      raise (YtDlpWrapperError
               "yt-dlp not found. Install with: uv pip install -U yt-dlp")
    else if String.eqb (cookies_browser self) "firefox" then
      present <- observe (fun w =>
        existsb (path_exists env w)
          ["/Applications/Firefox.app"; "~/.mozilla/firefox"; "/usr/bin/firefox"]) ;;
      if negb present then log (BrowserNotFound (cookies_browser self))
      else ret tt
    else ret tt.

Definition _check_javascript_runtime : M World (option string) :=
  observe (fun w => find (which env w) ["deno"; "node"; "bun"; "quickjs"]).

Definition _check_pot_plugin_installed : M World bool :=
  observe (fun w =>
    let uv_cmd := ["uv"; "pip"; "show"; "bgutil-ytdlp-pot-provider"] in
    let pip_cmd :=
      [sys_executable env; "-m"; "pip"; "show"; "bgutil-ytdlp-pot-provider"] in
    let cmd := if which env w "uv" then uv_cmd else pip_cmd in
    match run_probe env w cmd with
    | Some returncode => (returncode =? 0)%Z
    | None => false
    end).

Definition _check_pot_server_running : M World bool :=
  observe (fun w =>
    match connect_ex env w "127.0.0.1" 4416%Z with
    | Some result => (result =? 0)%Z
    | None => false
    end).

Definition _validate_pot_provider (url : string)
  (pot_provider_mode : option string) : M World (option string) :=
  match detect_platform url with
  | youtube =>
      plugin_installed <- _check_pot_plugin_installed ;;
      if negb plugin_installed then
        log PotPluginTip ;; ret None
      else
        if opt_eqb pot_provider_mode "script" then
          log PotScriptMode ;; ret None
        else
          server_running <- _check_pot_server_running ;;
          if server_running then log PotServerReady ;; ret None
          else log PotServerNotDetected ;; ret None
  | _ => ret None
  end.

Definition _validate_youtube_requirements (url : string) : M World unit :=
  match detect_platform url with
  | youtube =>
      runtime <- _check_javascript_runtime ;;
      if negb (truthy_opt runtime) then log NoJavaScriptRuntime else ret tt
  | _ => ret tt
  end.

(** [_run_command]: the success flag and the output. *)
Definition _run_command (cmd : string) (capture_output : bool)
  : M World (bool * option string) :=
  p <- act (fun w => run_shell env w cmd) ;;
  match subprocess_run capture_output p with
  | Completed stdout => ret (true, stdout)
  | TimeoutExpired => log CommandTimedOut ;; ret (false, Some EmptyString)
  | CalledProcessError returncode stderr =>
      log (CommandFailed returncode stderr) ;;
      ret (false, Some (match stderr with Some s => s | None => EmptyString end))
  end.

Definition get_video_info (self : VideoDownloader) (url : string) : M World Info :=
  so <- _run_command (metadata_cmd self url) true ;;
  let '(success, output) := so in
  if negb success || negb (truthy_opt output) then
    log NoVideoInformation ;; ret empty_info
  else
    match json_loads env (match output with Some s => s | None => EmptyString end) with
    | Some info => ret info
    | None => log BadVideoInformation ;; ret empty_info
    end.

Definition check_premium_formats (self : VideoDownloader) (url : string)
  : M World (option string) :=
  log CheckingPremium ;;
  so <- _run_command (listing_cmd self url) true ;;
  let '(success, output) := so in
  if negb success || negb (truthy_opt output) then
    log NoFormatList ;; ret None
  else
    let output := match output with Some s => s | None => EmptyString end in
    match best_premium_format output with
    | None => log NoPremiumFormats ;; ret None
    | Some selector =>
        let '(best_premium_id, best_height) := premium_scan output in
        log (BestPremium (match best_premium_id with
                          | Some i => i | None => EmptyString end) best_height) ;;
        ret (Some selector)
    end.

(** Lines 340-348: which format selector the attempt uses. *)
Definition resolve_format_selector (self : VideoDownloader)
  (platform : Platform) (r : Request) : M World string :=
  fs <- (if Platform_eqb platform youtube && prefer_premium r
            && negb (truthy_opt (format_selector r))
         then
           premium_format <- check_premium_formats self (url r) ;;
           if truthy_opt premium_format
           then
             log (UsingPremium (match premium_format with
                                | Some p => p | None => EmptyString end)) ;;
             ret premium_format
           else ret (format_selector r)
         else ret (format_selector r)) ;;
  ret (match fs with Some s => s | None => DEFAULT_FORMAT_SELECTOR end).

(** Lines 350-358: metadata and output directory. *)
Definition resolve_output_dir (self : VideoDownloader) (r : Request)
  : M World string :=
  log FetchingMetadata ;;
  info <- get_video_info self (url r) ;;
  let title := match title info with Some t => t | None => "video" end in
  let date_str := if truthy_opt (upload_date info) then upload_date info
                  else release_date info in
  dir <- act (fun w => create_output_dir env w title date_str) ;;
  match dir with
  | None => raise (YtDlpWrapperError "Could not create output directory")
  | Some output_dir => log (OutputDirectory output_dir) ;; ret output_dir
  end.

(** Line 445: [subprocess.run(base_cmd, check=True, timeout=3600)], with
    no capture of the child's output; the attempt is recorded. *)
Definition run_download (cmd : list string) : M World RunOutcome :=
  log StartingDownload ;;
  p <- act (fun w => run_argv env w cmd) ;;
  let o := subprocess_run false p in
  record_attempt {| argv := cmd; outcome := o |} ;;
  ret o.

(** Lines 451-484: the PO Token diagnosis. *)
Definition check_po_token_error (platform : Platform) (error_output : string)
  : M World bool :=
  if Platform_eqb platform youtube && any_phrase po_token_phrases error_output
  then
    plugin_installed <- _check_pot_plugin_installed ;;
    log (PoTokenRequired plugin_installed) ;;
    ret true
  else ret false.

(** Lines 448-547: the handler of [CalledProcessError].  [again] stands
    for the method itself, which the handler calls for the retries. *)
Definition on_called_process_error (again : Request -> M World bool)
  (platform : Platform) (r : Request) (fs : string)
  (returncode : Z) (stderr : option string) : M World bool :=
  let error_output := error_output_of stderr in
  po_token_error <- check_po_token_error platform error_output ;;
  let sabr_related :=
    Platform_eqb platform youtube && any_phrase sabr_phrases error_output in
  (if sabr_related && negb po_token_error
   then log SabrIssueDetected else ret tt) ;;
  if Platform_eqb platform youtube && try_fallback_clients r
     && (sabr_related || negb (truthy_opt (youtube_client r)))
  then
    ok <- try_clients
            (fun client =>
               log (TryingFallbackClient client) ;;
               again (fallback_request r fs client))
            (available_clients (youtube_client r)) ;;
    if ok then ret true
    else if sabr_related && negb (try_sabr r) then
      log TryingSabr ;;
      again (sabr_request r fs)
    else
      log (DownloadFailed returncode stderr) ;; ret false
  else
    log (DownloadFailed returncode stderr) ;; ret false.

(** [download_video].  The method calls itself; [fuel] bounds the depth of
    these calls. *)
Fixpoint download_video (fuel : nat) (self : VideoDownloader) (r : Request)
  {struct fuel} : M World bool :=
  match fuel with
  | O => out_of_fuel
  | S fuel' =>
      let platform := detect_platform (url r) in
      log (DetectedPlatform platform) ;;
      _validate_youtube_requirements (url r) ;;
      _validate_pot_provider (url r) (pot_provider_mode r) ;;
      fs <- resolve_format_selector self platform r ;;
      output_dir <- resolve_output_dir self r ;;
      let cmd := base_cmd (cookies_browser self) platform fs output_dir r in
      o <- run_download cmd ;;
      match o with
      | Completed _ => log DownloadCompleted ;; ret true
      | TimeoutExpired => log DownloadTimedOut ;; ret false
      | CalledProcessError returncode stderr =>
          on_called_process_error (download_video fuel' self)
            platform r fs returncode stderr
      end
  end.

End Downloader.

(* ================================================================== *)
(** ** [main], after the command line was parsed *)
(* ================================================================== *)

(** The namespace returned by [parse_known_args]. *)
Record Args := {
  args_url : string;
  args_format : option string;
  args_browser : string;
  args_youtube_client : option string;
  args_enable_sabr : bool;
  args_no_fallback : bool;
  args_no_premium : bool;
  args_sponsorblock_mark : option string;
  args_sponsorblock_remove : option string;
  args_embed_chapters : bool;
  args_sleep_interval : option Z;
  args_pot_provider_mode : option string;
  args_pot_provider_url : option string;
  args_pot_provider_script : option string
}.

Definition request_of_args (args : Args) (extra : list string) : Request :=
  {| url := args_url args;
     extra_args := extra;
     format_selector := args_format args;
     youtube_client := args_youtube_client args;
     try_sabr := args_enable_sabr args;
     try_fallback_clients := negb (args_no_fallback args);
     prefer_premium := negb (args_no_premium args);
     sponsorblock_mark := args_sponsorblock_mark args;
     sponsorblock_remove := args_sponsorblock_remove args;
     embed_chapters := args_embed_chapters args;
     sleep_interval := args_sleep_interval args;
     pot_provider_mode := args_pot_provider_mode args;
     pot_provider_url := args_pot_provider_url args;
     pot_provider_script := args_pot_provider_script args |}.

(** The [try] block of [main]: the constructor of [VideoDownloader], which
    validates the dependencies, then the download. *)
Definition main_body {World} (env : Env World) (fuel : nat) (args : Args)
  (extra : list string) : M World bool :=
  let downloader := {| cookies_browser := args_browser args |} in
  _validate_dependencies env downloader ;;
  download_video env fuel downloader (request_of_args args extra).

(** [main]: the exit status of the process, [None] when the fuel of the
    model ran out. *)
Definition main {World} (env : Env World) (fuel : nat) (args : Args)
  (extra : list string) (st : State World) : option Z * State World :=
  match main_body env fuel args extra st with
  | (Ret success, st') => (Some (if success then 0%Z else 1%Z), st')
  | (Raise e, st') =>
      (Some 1%Z, {| world := world st'; attempts := attempts st';
                    logs := logs st' ++ [FatalError e] |})
  | (OutOfFuel, st') => (None, st')
  end.

(* ================================================================== *)
(** ** A scripted world for concrete runs *)
(* ================================================================== *)

Module Script.

(** The world is the list of what the coming download runs will do; when
    the list is used up a run fails with return code 1. *)
Definition World := list ProcResult.

Definition failure (stderr : string) : ProcResult := Exited 1 EmptyString stderr.
Definition success : ProcResult := Exited 0 EmptyString EmptyString.

Definition next_download (w : World) (_ : list string) : ProcResult * World :=
  match w with
  | [] => (failure EmptyString, [])
  | p :: w' => (p, w')
  end.

(** [listing] is what [yt-dlp -F] prints; the metadata query fails. *)
Definition shell (listing : string) (w : World) (cmd : string)
  : ProcResult * World :=
  if contains " -F " cmd then (Exited 0 listing EmptyString, w)
  else (failure "no metadata", w).

Definition env (version : nat * nat) (have_ytdlp : bool) (listing : string)
  : Env World :=
  {| sys_version_info := version;
     sys_executable := "/usr/bin/python3";
     which := fun _ name => have_ytdlp && String.eqb name "yt-dlp";
     path_exists := fun _ _ => true;
     run_probe := fun _ _ => Some 1%Z;
     connect_ex := fun _ _ _ => Some 111%Z;
     run_shell := shell listing;
     run_argv := next_download;
     json_loads := fun _ => None;
     create_output_dir := fun w _ _ => (Some "/home/user/Downloads/video", w) |}.

Definition std_env : Env World := env (3, 12)%nat true EmptyString.

Definition start (w : World) : State World :=
  {| world := w; attempts := []; logs := [] |}.

Definition firefox : VideoDownloader := {| cookies_browser := "firefox" |}.

(** A request as [main] builds it from a bare URL. *)
Definition plain (u : string) : Request :=
  {| url := u; extra_args := []; format_selector := None;
     youtube_client := None; try_sabr := false; try_fallback_clients := true;
     prefer_premium := true; sponsorblock_mark := None;
     sponsorblock_remove := None; embed_chapters := false;
     sleep_interval := None; pot_provider_mode := None;
     pot_provider_url := None; pot_provider_script := None |}.

(** A format listing with the line of the scenario of the specification. *)
Definition listing_137 : string :=
  "ID   EXT   RESOLUTION  MORE INFO" +++
  String newline ("18   mp4   640x360     360p" +++
  String newline ("137  1920x1080 ... Premium ..." +++
  String newline "140   m4a   audio only  medium")).

(** A post on X, with a rate limit of five seconds. *)
Definition x_rate_limited : Request :=
  {| url := "https://x.com/user/status/1"; extra_args := [];
     format_selector := None; youtube_client := None; try_sabr := false;
     try_fallback_clients := true; prefer_premium := true;
     sponsorblock_mark := Some "all"; sponsorblock_remove := Some "sponsor";
     embed_chapters := false; sleep_interval := Some 5%Z;
     pot_provider_mode := None; pot_provider_url := None;
     pot_provider_script := None |}.

(** A youtube request with both token-provider overrides and neither a
    client profile nor the streaming mode. *)
Definition both_providers : Request :=
  {| url := "https://youtu.be/abc123"; extra_args := [];
     format_selector := None; youtube_client := None; try_sabr := false;
     try_fallback_clients := true; prefer_premium := true;
     sponsorblock_mark := None; sponsorblock_remove := None;
     embed_chapters := false; sleep_interval := None;
     pot_provider_mode := None;
     pot_provider_url := Some "http://127.0.0.1:8080";
     pot_provider_script := Some "/opt/pot/generate.js" |}.

(** The same with a client profile and the streaming mode. *)
Definition all_clauses : Request :=
  {| url := "https://youtu.be/abc123"; extra_args := ["--no-playlist"];
     format_selector := None; youtube_client := Some "mweb"; try_sabr := true;
     try_fallback_clients := true; prefer_premium := true;
     sponsorblock_mark := Some "all"; sponsorblock_remove := None;
     embed_chapters := true; sleep_interval := Some 5%Z;
     pot_provider_mode := None;
     pot_provider_url := Some "http://127.0.0.1:8080";
     pot_provider_script := Some "/opt/pot/generate.js" |}.

Definition downloads_dir : string := "/home/user/Downloads/video".

(** The namespace for a bare youtube URL. *)
Definition bare_args : Args :=
  {| args_url := "https://youtu.be/abc123"; args_format := None;
     args_browser := "firefox"; args_youtube_client := None;
     args_enable_sabr := false; args_no_fallback := false;
     args_no_premium := false; args_sponsorblock_mark := None;
     args_sponsorblock_remove := None; args_embed_chapters := false;
     args_sleep_interval := None; args_pot_provider_mode := None;
     args_pot_provider_url := None; args_pot_provider_script := None |}.

(** A world where the token-provider plugin is installed and its server is
    not running. *)
Definition plugin_env : Env World :=
  {| sys_version_info := (3, 12)%nat;
     sys_executable := "/usr/bin/python3";
     which := fun _ name => String.eqb name "yt-dlp";
     path_exists := fun _ _ => true;
     run_probe := fun _ _ => Some 0%Z;
     connect_ex := fun _ _ _ => Some 111%Z;
     run_shell := shell EmptyString;
     run_argv := next_download;
     json_loads := fun _ => None;
     create_output_dir := fun w _ _ => (Some "/home/user/Downloads/video", w) |}.

End Script.

(* ================================================================== *)
(** ** Notions used to state the properties *)
(* ================================================================== *)

(** The part of a URL before its query string. *)
Fixpoint before_query (u : string) : string :=
  match u with
  | EmptyString => EmptyString
  | String c u' =>
      if Ascii.eqb c "?" then EmptyString else String c (before_query u')
  end.

(** The tag that comes first in the order of [SUPPORTED_PLATFORMS]. *)
Definition first_in_table (p q : Platform) : Platform :=
  match p, q with
  | youtube, _ | _, youtube => youtube
  | x_twitter, _ | _, x_twitter => x_twitter
  | other, other => other
  end.

(** Every domain fragment of the table. *)
Definition all_fragments : list string :=
  flat_map snd SUPPORTED_PLATFORMS.

(** A marked line of the listing that yields a format identifier. *)
Definition premium_candidate (line format_id : string) : Prop :=
  contains "Premium" line = true /\ premium_match line = Some format_id.

(** The state of the scan after the lines [seen]: the best height bounds
    the height of every candidate seen, and the identifier kept, if any,
    belongs to a candidate of that height, which is positive. *)
Definition scan_invariant (seen : list string) (best : option string * N) : Prop :=
  (forall line format_id,
     In line seen -> premium_candidate line format_id ->
     (line_height line <= snd best)%N) /\
  match fst best with
  | None => snd best = 0%N
  | Some best_id =>
      exists best_line,
        In best_line seen /\ premium_candidate best_line best_id /\
        line_height best_line = snd best /\ (0 < snd best)%N
  end.

(** The selector that the outcome of the format-listing query leads to. *)
Definition selector_for_listing (listing : RunOutcome) : string :=
  match listing with
  | Completed (Some output) =>
      if truthy output then
        match best_premium_format output with
        | Some selector => selector
        | None => DEFAULT_FORMAT_SELECTOR
        end
      else DEFAULT_FORMAT_SELECTOR
  | _ => DEFAULT_FORMAT_SELECTOR
  end.

(** A token that the scans of the command builder cannot take for an
    extractor argument. *)
Definition plain_token (t : string) : bool :=
  negb (startswith t "--extractor-args") &&
  negb (startswith t "youtube:player-client=").

Definition plain_opt (o : option string) : bool :=
  match o with Some t => plain_token t | None => true end.

(** The tokens of the command that come before the extractor arguments. *)
Definition front_of (cookies_browser : string) (platform : Platform)
  (fs output_dir : string) (r : Request) : list string :=
  add_sleep_interval r
    (add_sponsorblock platform r
      (add_embed_chapters r (base_flags cookies_browser fs output_dir))).

(** The extractor-argument clauses that a request asks for, in the order
    client profile, streaming mode, token-provider URL, token-provider
    script. *)
Definition wanted_clauses (r : Request) : list string :=
  match youtube_client r with
  | Some c => if truthy c then ["youtube:player-client=" +++ c] else []
  | None => []
  end ++
  (if try_sabr r then [formats_arg] else []) ++
  pot_args r.

(** The clauses joined by semicolons into one value. *)
Definition merged_value (r : Request) : string :=
  String.concat ";" (wanted_clauses r).

Definition with_pot_provider_mode (r : Request) (mode : option string) : Request :=
  {| url := url r;
     extra_args := extra_args r;
     format_selector := format_selector r;
     youtube_client := youtube_client r;
     try_sabr := try_sabr r;
     try_fallback_clients := try_fallback_clients r;
     prefer_premium := prefer_premium r;
     sponsorblock_mark := sponsorblock_mark r;
     sponsorblock_remove := sponsorblock_remove r;
     embed_chapters := embed_chapters r;
     sleep_interval := sleep_interval r;
     pot_provider_mode := mode;
     pot_provider_url := pot_provider_url r;
     pot_provider_script := pot_provider_script r |}.

(** [m] makes no download attempt and does not run out of fuel. *)
Definition quiet {World A} (m : M World A) : Prop :=
  forall st, attempts (snd (m st)) = attempts st /\ fst (m st) <> OutOfFuel.

Definition is_completed (o : RunOutcome) : bool :=
  match o with Completed _ => true | _ => false end.

(** An outcome that carries none of the child's output. *)
Definition no_output (o : RunOutcome) : Prop :=
  match o with
  | Completed (Some _) | CalledProcessError _ (Some _) => False
  | _ => True
  end.

(** The attempts and the result of one call that cannot retry: none when
    an exception came first, else the one attempt for the request. *)
Definition single_attempt (browser : string) (r : Request)
  (new : list Attempt) (res : Result bool) : Prop :=
  (new = [] /\ exists e, res = Raise e) \/
  (exists fs dir o,
      new = [{| argv := base_cmd browser (detect_platform (url r)) fs dir r;
                outcome := o |}] /\
      no_output o /\ res = Ret (is_completed o)).

(** The attempts and the result of the loop over the fallback clients:
    one call that cannot retry for each client in turn, until one
    succeeds or raises. *)
Fixpoint fallback_trace (browser : string) (r : Request) (fs : string)
  (clients : list string) (new : list Attempt) (res : Result bool) : Prop :=
  match clients with
  | [] => new = [] /\ res = Ret false
  | client :: clients' =>
      exists new1 res1,
        single_attempt browser (fallback_request r fs client) new1 res1 /\
        match res1 with
        | Ret true => new = new1 /\ res = Ret true
        | Ret false =>
            exists new2,
              new = new1 ++ new2 /\ fallback_trace browser r fs clients' new2 res
        | Raise e => new = new1 /\ res = Raise e
        | OutOfFuel => False
        end
  end.

(** The test that opens the retries after a failed attempt, given that no
    diagnostic text reached the script. *)
Definition retries (r : Request) : bool :=
  Platform_eqb (detect_platform (url r)) youtube
  && try_fallback_clients r
  && negb (truthy_opt (youtube_client r)).

(** The attempts and the result of a whole call of [download_video]. *)
Definition download_trace (browser : string) (r : Request)
  (new : list Attempt) (res : Result bool) : Prop :=
  (new = [] /\ exists e, res = Raise e) \/
  (exists fs dir o,
      no_output o /\
      let first := {| argv := base_cmd browser (detect_platform (url r)) fs dir r;
                      outcome := o |} in
      match o with
      | Completed _ => new = [first] /\ res = Ret true
      | TimeoutExpired => new = [first] /\ res = Ret false
      | CalledProcessError _ _ =>
          if retries r then
            exists tail,
              new = first :: tail /\
              fallback_trace browser r fs
                (available_clients (youtube_client r)) tail res
          else new = [first] /\ res = Ret false
      end).

(** Two states that differ in their log only. *)
Definition same_run {World} (st1 st2 : State World) : Prop :=
  world st1 = world st2 /\ attempts st1 = attempts st2.

(** Two computations that cannot be told apart by their result, by the
    world they leave or by the download attempts they make. *)
Definition alike {World A} (m1 m2 : M World A) : Prop :=
  forall st1 st2,
    same_run st1 st2 ->
    fst (m1 st1) = fst (m2 st2) /\ same_run (snd (m1 st1)) (snd (m2 st2)).

(** A computation that returns [v] and leaves the world and the attempts
    as they are: it can only add to the log. *)
Definition silent {World A} (v : A) (m : M World A) : Prop :=
  forall st, fst (m st) = Ret v /\ same_run (snd (m st)) st.

(** The dependency check of [_validate_dependencies] fails. *)
Definition dependency_check_fails {World} (env : Env World) (w : World) : Prop :=
  (fst (sys_version_info env) < 3)%nat \/
  (fst (sys_version_info env) = 3 /\ snd (sys_version_info env) < 10)%nat \/
  which env w "yt-dlp" = false.

(** Occurrence of a character in a string. *)
Fixpoint has_char (c : ascii) (s : string) : bool :=
  match s with
  | EmptyString => false
  | String c' s' => Ascii.eqb c' c || has_char c s'
  end.

(* ================================================================== *)
(** * Properties *)
(* ================================================================== *)

(** ** Strings *)

Lemma to_lower_idem : forall c, to_lower (to_lower c) = to_lower c.
Proof.
  intros [[] [] [] [] [] [] [] []]; reflexivity.
Qed.

Lemma lower_idem : forall s, lower (lower s) = lower s.
Proof.
  induction s as [|c s IH]; simpl; [reflexivity|].
  now rewrite to_lower_idem, IH.
Qed.

Lemma lower_app : forall a b, lower (a +++ b) = lower a +++ lower b.
Proof.
  induction a as [|c a IH]; intros b; simpl; [reflexivity|].
  now rewrite IH.
Qed.

Lemma prefix_nil : forall s, prefix EmptyString s = true.
Proof. now destruct s. Qed.

Lemma contains_nil : forall s, contains EmptyString s = true.
Proof. intros s. destruct s; reflexivity. Qed.

Lemma prefix_cons : forall c d e s,
  prefix (String c d) (String e s) = Ascii.eqb c e && prefix d s.
Proof.
  intros c d e s. simpl.
  destruct (ascii_dec c e) as [->|Hne].
  - now rewrite Ascii.eqb_refl.
  - apply Ascii.eqb_neq in Hne. now rewrite Hne.
Qed.

(** A fragment that lacks the separator [c] cannot straddle it. *)
Lemma prefix_app_sep : forall d a c b,
  has_char c d = false ->
  prefix d (a +++ String c b) = prefix d a.
Proof.
  induction d as [|e d IH]; intros a c b Hc.
  - now rewrite !prefix_nil.
  - simpl in Hc. apply orb_false_iff in Hc as [Hec Hd].
    destruct a as [|h a].
    + cbn [String.append]. rewrite prefix_cons, Hec. reflexivity.
    + cbn [String.append]. rewrite !prefix_cons. now rewrite IH.
Qed.

Lemma contains_app_sep : forall d a c b,
  has_char c d = false ->
  contains d (a +++ String c b) = contains d a || contains d b.
Proof.
  intros d a c b Hc. induction a as [|h a IH].
  - cbn [String.append]. destruct d as [|e d].
    + now rewrite !contains_nil.
    + simpl in Hc. apply orb_false_iff in Hc as [Hec _].
      change (contains (String e d) (String c b))
        with (prefix (String e d) (String c b) || contains (String e d) b).
      rewrite prefix_cons, Hec. reflexivity.
  - cbn [String.append].
    change (contains d (String h (a +++ String c b)))
      with (prefix d (String h (a +++ String c b)) || contains d (a +++ String c b)).
    change (contains d (String h a)) with (prefix d (String h a) || contains d a).
    rewrite IH.
    change (String h (a +++ String c b)) with (String h a +++ String c b).
    rewrite (prefix_app_sep d (String h a) c b Hc).
    now rewrite orb_assoc.
Qed.

Lemma contains_app_l : forall d a b,
  contains d a = true -> contains d (a +++ b) = true.
Proof.
  intros d a b. induction a as [|h a IH]; intros H.
  - destruct d as [|e d]; [apply contains_nil|]. discriminate H.
  - cbn [String.append].
    change (contains d (String h (a +++ b)))
      with (prefix d (String h (a +++ b)) || contains d (a +++ b)).
    change (contains d (String h a)) with (prefix d (String h a) || contains d a) in H.
    apply orb_true_iff in H as [H|H].
    + apply orb_true_iff. left.
      clear IH. change (String h (a +++ b)) with (String h a +++ b).
      revert H. generalize (String h a) as s. clear.
      induction d as [|e d IHd]; intros s H; [apply prefix_nil|].
      destruct s as [|k s]; [discriminate H|].
      change (String k s +++ b) with (String k (s +++ b)).
      rewrite prefix_cons in H. rewrite prefix_cons.
      apply andb_true_iff in H as [H1 H2]. rewrite H1. simpl. now apply IHd.
    + apply orb_true_iff. right. now apply IH.
Qed.

(** ** Platform classifier *)

(** The loop of [detect_platform], unrolled over the table. *)
Lemma detect_platform_unfold : forall u,
  detect_platform u =
  if contains "youtube.com" (lower u) || contains "youtu.be" (lower u)
  then youtube
  else if contains "twitter.com" (lower u) || contains "x.com" (lower u)
  then x_twitter
  else other.
Proof.
  intros u. unfold detect_platform, SUPPORTED_PLATFORMS.
  cbn [detect_in existsb]. rewrite !orb_false_r. reflexivity.
Qed.

Lemma detect_platform_lower : forall u,
  detect_platform (lower u) = detect_platform u.
Proof.
  intros u. unfold detect_platform. now rewrite lower_idem.
Qed.

Lemma contains_lower_query : forall d base q,
  has_char "?" d = false ->
  contains d (lower (base +++ "?" +++ q)) =
  contains d (lower base) || contains d (lower q).
Proof.
  intros d base q Hd. rewrite lower_app.
  change (lower ("?" +++ q)) with (String "?" (lower q)).
  now apply contains_app_sep.
Qed.

Lemma detect_platform_query : forall base q,
  detect_platform (base +++ "?" +++ q) =
  first_in_table (detect_platform base) (detect_platform q).
Proof.
  intros base q. rewrite !detect_platform_unfold.
  rewrite !contains_lower_query by reflexivity.
  destruct (contains "youtube.com" (lower base)),
           (contains "youtu.be" (lower base)),
           (contains "twitter.com" (lower base)),
           (contains "x.com" (lower base)),
           (contains "youtube.com" (lower q)),
           (contains "youtu.be" (lower q)),
           (contains "twitter.com" (lower q)),
           (contains "x.com" (lower q)); reflexivity.
Qed.

Lemma detect_platform_other : forall u,
  detect_platform u = other <->
  (forall d, In d all_fragments -> contains d (lower u) = false).
Proof.
  intros u. rewrite detect_platform_unfold. split.
  - intros H d Hd.
    destruct (contains "youtube.com" (lower u)) eqn:E1; [discriminate H|].
    destruct (contains "youtu.be" (lower u)) eqn:E2; [discriminate H|].
    destruct (contains "twitter.com" (lower u)) eqn:E3; [discriminate H|].
    destruct (contains "x.com" (lower u)) eqn:E4; [discriminate H|].
    cbn in Hd. destruct Hd as [<-|[<-|[<-|[<-|[]]]]]; assumption.
  - intros H.
    rewrite (H "youtube.com"), (H "youtu.be"), (H "twitter.com"), (H "x.com");
      cbn; auto 10.
Qed.

(** C8 (as amended): classification reads the lower-cased URL only, so
    letter casing never matters; for a URL [base?query] the tag is the one
    of [base] and of [query] that comes first in the table, so the query
    string matters exactly when it holds a domain fragment itself; the tag
    is [other] exactly when no fragment of the table occurs. *)
Theorem detect_platform_casing_and_query :
  (forall u1 u2, lower u1 = lower u2 -> detect_platform u1 = detect_platform u2) /\
  (forall base q,
     detect_platform (base +++ "?" +++ q) =
     first_in_table (detect_platform base) (detect_platform q)) /\
  (forall base q1 q2,
     detect_platform q1 = other -> detect_platform q2 = other ->
     detect_platform (base +++ "?" +++ q1) = detect_platform (base +++ "?" +++ q2)) /\
  (forall u,
     detect_platform u = other <->
     (forall d, In d all_fragments -> contains d (lower u) = false)).
Proof.
  split; [|split; [|split]].
  - intros u1 u2 H. unfold detect_platform. now rewrite H.
  - apply detect_platform_query.
  - intros base q1 q2 H1 H2. rewrite !detect_platform_query, H1, H2. reflexivity.
  - apply detect_platform_other.
Qed.

Lemma detect_platform_casing_and_query_witness :
  detect_platform "https://WWW.YouTube.com/watch?v=abc" =
  detect_platform "https://www.youtube.com/watch?v=ABC"
  /\ detect_platform ("https://x.com/user/status/1" +++ "?" +++ "s=20") =
     detect_platform ("https://x.com/user/status/1" +++ "?" +++ "t=abc").
Proof.
  split.
  - apply (proj1 detect_platform_casing_and_query). reflexivity.
  - apply (proj1 (proj2 (proj2 detect_platform_casing_and_query))); reflexivity.
Defined.

(** C8, counterexample: two URLs with the same part before the query
    string, both holding the fragment [x.com], get different tags. *)
Lemma detect_platform_query_counterexample :
  let u1 := "https://x.com/user/status/1?ref=home" in
  let u2 := "https://x.com/user/status/1?ref=youtu.be" in
  before_query u1 = before_query u2 /\
  contains "x.com" (lower u1) = true /\
  contains "x.com" (lower u2) = true /\
  detect_platform u1 <> detect_platform u2.
Proof.
  cbv zeta. repeat split; try reflexivity.
  vm_compute. discriminate.
Qed.

(** ** Format strategy *)

Lemma premium_match_truthy : forall line format_id,
  premium_match line = Some format_id -> truthy format_id = true.
Proof.
  intros line format_id. unfold premium_match.
  destruct (span_digits line) as [[|d ds] [|c rest]]; try discriminate.
  destruct (is_space c); [|discriminate].
  intros H. injection H as <-. reflexivity.
Qed.

Lemma premium_step_invariant : forall seen best line,
  scan_invariant seen best ->
  scan_invariant (seen ++ [line]) (premium_step best line).
Proof.
  intros seen [b h] line [Hmax Hbest]. cbn [fst snd] in *.
  assert (Hkeep : (forall format_id, premium_candidate line format_id ->
                                     (line_height line <= h)%N) ->
                  scan_invariant (seen ++ [line]) (b, h)).
  { intros Hline. split; cbn [fst snd].
    - intros l i Hin Hc. apply in_app_or in Hin as [Hin|[<-|[]]].
      + eapply Hmax; eauto.
      + eapply Hline; eauto.
    - destruct b as [best_id|]; [|assumption].
      destruct Hbest as (best_line & Hin & Hc & Hh & Hpos).
      exists best_line. repeat split; try assumption; try apply Hc.
      apply in_or_app. now left. }
  unfold premium_step. cbn [snd].
  destruct (contains "Premium" line) eqn:Emark; cbn [negb].
  2:{ apply Hkeep. intros i [Hc _]. congruence. }
  destruct (premium_match line) as [format_id|] eqn:Eid.
  2:{ apply Hkeep. intros i [_ Hc]. congruence. }
  destruct (h <? line_height line)%N eqn:Elt.
  - apply N.ltb_lt in Elt. split; cbn [fst snd].
    + intros l i Hin Hc. apply in_app_or in Hin as [Hin|[<-|[]]].
      * specialize (Hmax l i Hin Hc). lia.
      * lia.
    + exists line. repeat split; try assumption.
      * apply in_or_app. right. now left.
      * lia.
  - apply N.ltb_ge in Elt. apply Hkeep. intros _ _. exact Elt.
Qed.

Lemma premium_fold_invariant : forall rest seen best,
  scan_invariant seen best ->
  scan_invariant (seen ++ rest) (fold_left premium_step rest best).
Proof.
  induction rest as [|line rest IH]; intros seen best Hinv; cbn [fold_left].
  - now rewrite app_nil_r.
  - replace (seen ++ line :: rest) with ((seen ++ [line]) ++ rest)
      by (rewrite <- app_assoc; reflexivity).
    apply IH. now apply premium_step_invariant.
Qed.

Lemma premium_scan_invariant : forall output,
  scan_invariant (str_split newline output) (premium_scan output).
Proof.
  intros output. unfold premium_scan.
  apply (premium_fold_invariant (str_split newline output) [] (None, 0%N)).
  split; cbn [fst snd]; [intros l i []|reflexivity].
Qed.

(** A candidate with a positive height makes the scan keep the identifier
    of a candidate of the greatest height. *)
Lemma best_premium_format_some : forall output,
  (exists line format_id,
      In line (str_split newline output) /\ premium_candidate line format_id /\
      (0 < line_height line)%N) ->
  exists best_line best_id,
    In best_line (str_split newline output) /\
    premium_candidate best_line best_id /\
    (forall line format_id,
        In line (str_split newline output) -> premium_candidate line format_id ->
        (line_height line <= line_height best_line)%N) /\
    best_premium_format output = Some (best_id +++ "+bestaudio/best").
Proof.
  intros output (line & format_id & Hin & Hc & Hpos).
  destruct (premium_scan_invariant output) as [Hmax Hbest].
  unfold best_premium_format.
  destruct (premium_scan output) as [[best_id|] h]; cbn [fst snd] in *.
  - destruct Hbest as (best_line & Hin' & Hc' & Hh & Hpos').
    exists best_line, best_id. repeat split; try assumption; try apply Hc'.
    + intros l i Hl Hcl. rewrite Hh. eapply Hmax; eauto.
    + rewrite (premium_match_truthy best_line best_id); [reflexivity|apply Hc'].
  - specialize (Hmax line format_id Hin Hc). lia.
Qed.

(** Without such a candidate the scan keeps nothing. *)
Lemma best_premium_format_none : forall output,
  (forall line format_id,
      In line (str_split newline output) -> premium_candidate line format_id ->
      line_height line = 0%N) ->
  best_premium_format output = None.
Proof.
  intros output Hnone.
  destruct (premium_scan_invariant output) as [_ Hbest].
  unfold best_premium_format.
  destruct (premium_scan output) as [[best_id|] h]; cbn [fst snd] in *;
    [|reflexivity].
  destruct Hbest as (best_line & Hin & Hc & Hh & Hpos).
  rewrite (Hnone best_line best_id Hin Hc) in Hh. lia.
Qed.

Lemma best_premium_format_truthy : forall output selector,
  best_premium_format output = Some selector -> truthy selector = true.
Proof.
  intros output selector. unfold best_premium_format.
  destruct (fst (premium_scan output)) as [i|]; [|discriminate].
  destruct i; cbn [truthy]; [discriminate|].
  intros H. injection H as <-. reflexivity.
Qed.

Lemma resolve_format_selector_premium :
  forall {World} (env : Env World) self r st,
    detect_platform (url r) = youtube ->
    format_selector r = None ->
    prefer_premium r = true ->
    exists st',
      resolve_format_selector env self (detect_platform (url r)) r st =
      (Ret (selector_for_listing
              (subprocess_run true
                 (fst (run_shell env (world st) (listing_cmd self (url r)))))),
       st') /\
      attempts st' = attempts st.
Proof.
  intros World env self r st Hy Hf Hp. rewrite Hy.
  unfold resolve_format_selector. rewrite Hf, Hp. cbn [Platform_eqb truthy_opt negb andb].
  unfold check_premium_formats, _run_command, bind, log, act, ret. cbn [world attempts logs].
  destruct (run_shell env (world st) (listing_cmd self (url r))) as [p w].
  cbn [fst].
  destruct p as [rc out err|]; cbn [subprocess_run].
  - destruct (rc =? 0)%Z; cbn.
    + destruct (truthy out) eqn:Et; cbn.
      * destruct (best_premium_format out) as [sel|] eqn:Eb; cbn.
        -- destruct (premium_scan out) as [bid bh]. cbn.
           rewrite (best_premium_format_truthy _ _ Eb). cbn.
           eexists. split; reflexivity.
        -- eexists. split; reflexivity.
      * eexists. split; reflexivity.
    + eexists. split; reflexivity.
  - cbn. eexists. split; reflexivity.
Qed.

(** C7: for a youtube request with no explicit format selector and the
    premium preference on, the selector is resolved without an error.  When
    the format listing was obtained and holds a line with the [Premium]
    marker from which a format identifier and a positive height are read,
    the selector is [<id>+bestaudio/best] for such a line of the greatest
    height; when no marked line reads that way, or the listing query fails
    or prints nothing, the selector is the static default chain.  The
    listing line [137  1920x1080 ... Premium ...] gives
    [137+bestaudio/best]. *)
Theorem premium_selector_resolution :
  (forall {World} (env : Env World) self r st,
    detect_platform (url r) = youtube ->
    format_selector r = None ->
    prefer_premium r = true ->
    let listing :=
      subprocess_run true
        (fst (run_shell env (world st) (listing_cmd self (url r)))) in
    exists selector st',
      resolve_format_selector env self (detect_platform (url r)) r st =
      (Ret selector, st') /\
      attempts st' = attempts st /\
      (forall output,
          listing = Completed (Some output) -> truthy output = true ->
          ((exists line format_id,
               In line (str_split newline output) /\
               premium_candidate line format_id /\
               (0 < line_height line)%N) ->
           exists best_line best_id,
             In best_line (str_split newline output) /\
             premium_candidate best_line best_id /\
             (forall line format_id,
                 In line (str_split newline output) ->
                 premium_candidate line format_id ->
                 (line_height line <= line_height best_line)%N) /\
             selector = best_id +++ "+bestaudio/best") /\
          ((forall line format_id,
               In line (str_split newline output) ->
               premium_candidate line format_id ->
               line_height line = 0%N) ->
           selector = DEFAULT_FORMAT_SELECTOR)) /\
      ((forall output,
           listing = Completed (Some output) -> truthy output = false) ->
       selector = DEFAULT_FORMAT_SELECTOR)) /\
  best_premium_format "137  1920x1080 ... Premium ..." = Some "137+bestaudio/best" /\
  best_premium_format Script.listing_137 = Some "137+bestaudio/best".
Proof.
  split; [|split; reflexivity].
  intros World env self r st Hy Hf Hp listing.
  destruct (resolve_format_selector_premium env self r st Hy Hf Hp)
    as (st' & Hrun & Hatt).
  fold listing in Hrun.
  exists (selector_for_listing listing), st'.
  split; [exact Hrun|]. split; [exact Hatt|]. split.
  - intros output Hl Ht. rewrite Hl. cbn [selector_for_listing]. rewrite Ht.
    split.
    + intros Hex.
      destruct (best_premium_format_some output Hex)
        as (best_line & best_id & Hin & Hc & Hmax & Hbest).
      exists best_line, best_id. rewrite Hbest. repeat split; try assumption; apply Hc.
    + intros Hnone. now rewrite (best_premium_format_none output Hnone).
  - intros Hfail. destruct listing as [[output|]| |]; cbn [selector_for_listing];
      try reflexivity.
    now rewrite (Hfail output eq_refl).
Qed.

Lemma premium_selector_resolution_witness :
  exists selector st',
    resolve_format_selector
      (Script.env (3, 12)%nat true Script.listing_137) Script.firefox youtube
      (Script.plain "https://youtu.be/abc123") (Script.start []) =
    (Ret selector, st') /\
    attempts st' = [].
Proof.
  destruct (proj1 premium_selector_resolution _
              (Script.env (3, 12)%nat true Script.listing_137) Script.firefox
              (Script.plain "https://youtu.be/abc123") (Script.start [])
              eq_refl eq_refl eq_refl)
    as (selector & st' & Hrun & Hatt & _).
  exists selector, st'. split; [exact Hrun|exact Hatt].
Defined.

(** The scenario of the specification, run: the selector of the first
    download attempt is [137+bestaudio/best]. *)
Example premium_scenario_run :
  resolve_format_selector
    (Script.env (3, 12)%nat true Script.listing_137) Script.firefox youtube
    (Script.plain "https://youtu.be/abc123") (Script.start []) =
  (Ret "137+bestaudio/best",
   {| world := []; attempts := [];
      logs := [CheckingPremium; BestPremium "137" 1080;
               UsingPremium "137+bestaudio/best"] |}).
Proof. vm_compute. reflexivity. Qed.

(** A marked line without a resolution, or with the height 0, is never
    kept: the comparison with the initial best height 0 is strict. *)
Example premium_without_height :
  best_premium_format "140 m4a audio only Premium" = None /\
  best_premium_format "137 0x0 Premium" = None.
Proof. split; reflexivity. Qed.

(** ** Command builder *)

(** [str(n)] starts with a digit, or with a minus sign and a digit. *)
Lemma str_of_int_head : forall n,
  exists c s,
    is_digit c = true /\
    (str_of_int n = String c s \/ str_of_int n = String "-" (String c s)).
Proof.
  intros n. unfold str_of_int, NilZero.string_of_int.
  assert (Hu : forall d, exists c s,
             is_digit c = true /\ NilZero.string_of_uint d = String c s).
  { intros d. destruct d; cbn; eexists _, _; (split; [|reflexivity]); reflexivity. }
  destruct (Z.to_int n) as [d|d].
  - destruct (Hu d) as (c & s & Hc & Hs). exists c, s. split; [exact Hc|]. now left.
  - destruct (Hu d) as (c & s & Hc & Hs). exists c, s. split; [exact Hc|].
    right. now rewrite Hs.
Qed.

Lemma str_of_int_plain : forall n, plain_token (str_of_int n) = true.
Proof.
  intros n. destruct (str_of_int_head n) as (c & s & Hc & [->| ->]).
  - destruct c as [[] [] [] [] [] [] [] []]; try discriminate Hc; reflexivity.
  - destruct c as [[] [] [] [] [] [] [] []]; try discriminate Hc; reflexivity.
Qed.

Lemma str_of_int_not_flag : forall n rest,
  str_of_int n <> String "-" (String "-" rest).
Proof.
  intros n rest H. destruct (str_of_int_head n) as (c & s & Hc & [E|E]);
    rewrite E in H; injection H; intros; subst; discriminate Hc.
Qed.

Lemma base_cmd_not_youtube : forall b p fs dir r,
  p <> youtube ->
  base_cmd b p fs dir r =
  base_flags b fs dir
  ++ (if embed_chapters r then ["--embed-chapters"] else [])
  ++ sleep_flags r ++ extra_args r ++ [url r].
Proof.
  intros b p fs dir r Hp. unfold base_cmd.
  assert (E1 : add_youtube_args p r = fun l => l)
    by (destruct p; try reflexivity; now elim Hp).
  assert (E2 : add_sponsorblock p r = fun l => l)
    by (destruct p; try reflexivity; now elim Hp).
  rewrite E1, E2. unfold add_sleep_interval, add_embed_chapters.
  destruct (embed_chapters r); rewrite <- ?app_assoc; reflexivity.
Qed.

Lemma sleep_flags_cases : forall r,
  sleep_flags r = [] \/
  exists n, sleep_interval r = Some n /\ n <> 0%Z /\
            sleep_flags r = ["--sleep-interval"; str_of_int n].
Proof.
  intros r. unfold sleep_flags. destruct (sleep_interval r) as [n|]; [|now left].
  destruct (n =? 0)%Z eqn:E; [now left|]. right. exists n.
  apply Z.eqb_neq in E. auto.
Qed.

(** C5 (as amended): for a request whose platform is not youtube the
    command is the base flags, the chapter flag if asked for, the
    rate-limit flag with its value if a non-zero rate limit was supplied,
    then the pass-through arguments and the URL.  So the content-filter
    flags are never generated, whatever was supplied, but the rate-limit
    flag is: it does not depend on the platform. *)
Theorem non_youtube_command_flags :
  forall b fs dir r,
    detect_platform (url r) <> youtube ->
    let cmd := base_cmd b (detect_platform (url r)) fs dir r in
    cmd = base_flags b fs dir
          ++ (if embed_chapters r then ["--embed-chapters"] else [])
          ++ sleep_flags r ++ extra_args r ++ [url r]
    /\ (forall flag,
          In flag ["--sponsorblock-mark"; "--sponsorblock-remove"] ->
          ~ In flag (b :: fs :: dir :: url r :: extra_args r) ->
          ~ In flag cmd)
    /\ (forall n, sleep_interval r = Some n -> n <> 0%Z ->
          In "--sleep-interval" cmd /\ In (str_of_int n) cmd).
Proof.
  intros b fs dir r Hp cmd. subst cmd.
  rewrite (base_cmd_not_youtube _ _ _ _ _ Hp). split; [reflexivity|]. split.
  - intros flag Hflag Huser Hin.
    assert (Hf : exists rest, flag = String "-" (String "-" rest)).
    { cbn in Hflag. destruct Hflag as [<-|[<-|[]]]; eexists; reflexivity. }
    apply Huser. cbn [In].
    apply in_app_or in Hin as [Hin|Hin].
    { cbn in Hin.
      repeat (destruct Hin as [Hin|Hin];
              [first [ now auto
                     | exfalso; subst flag; cbn in Hflag;
                       destruct Hflag as [Hflag|[Hflag|[]]]; discriminate Hflag ]|]).
      destruct Hin. }
    apply in_app_or in Hin as [Hin|Hin].
    { destruct (embed_chapters r); cbn in Hin; [|destruct Hin].
      destruct Hin as [<-|[]]. cbn in Hflag.
      destruct Hflag as [Hflag|[Hflag|[]]]; discriminate Hflag. }
    apply in_app_or in Hin as [Hin|Hin].
    { destruct (sleep_flags_cases r) as [E|(n & _ & _ & E)]; rewrite E in Hin.
      - destruct Hin.
      - destruct Hin as [<-|[Hin|[]]].
        + cbn in Hflag. destruct Hflag as [Hflag|[Hflag|[]]]; discriminate Hflag.
        + destruct Hf as (rest & ->). exfalso. exact (str_of_int_not_flag _ _ Hin). }
    apply in_app_or in Hin as [Hin|[Hin|[]]]; auto.
  - intros n Hn Hz.
    assert (E : sleep_flags r = ["--sleep-interval"; str_of_int n]).
    { unfold sleep_flags. rewrite Hn.
      destruct (n =? 0)%Z eqn:E0; [apply Z.eqb_eq in E0; contradiction|reflexivity]. }
    rewrite E. split; apply in_or_app; right; apply in_or_app; right;
      apply in_or_app; left; cbn; auto.
Qed.

Lemma non_youtube_command_flags_witness :
  ~ In "--sponsorblock-mark"
      (base_cmd "firefox" (detect_platform (url Script.x_rate_limited))
         DEFAULT_FORMAT_SELECTOR Script.downloads_dir Script.x_rate_limited)
  /\ In "--sleep-interval"
      (base_cmd "firefox" (detect_platform (url Script.x_rate_limited))
         DEFAULT_FORMAT_SELECTOR Script.downloads_dir Script.x_rate_limited).
Proof.
  assert (Hp : detect_platform (url Script.x_rate_limited) <> youtube)
    by (vm_compute; discriminate).
  destruct (non_youtube_command_flags "firefox" DEFAULT_FORMAT_SELECTOR
              Script.downloads_dir Script.x_rate_limited Hp) as (_ & Hsb & Hsl).
  split.
  - apply Hsb; [cbn; auto|].
    cbn. intros [H|[H|[H|[H|[]]]]]; discriminate H.
  - apply (Hsl 5%Z); [reflexivity|discriminate].
Defined.

(** C5, counterexample: a post on X with a rate limit; the command
    carries the rate-limit flag although the platform is not youtube. *)
Lemma rate_limit_flag_counterexample :
  detect_platform (url Script.x_rate_limited) = x_twitter /\
  base_cmd "firefox" x_twitter DEFAULT_FORMAT_SELECTOR Script.downloads_dir
    Script.x_rate_limited =
  base_flags "firefox" DEFAULT_FORMAT_SELECTOR Script.downloads_dir
  ++ ["--sleep-interval"; "5"; "https://x.com/user/status/1"] /\
  In "--sleep-interval"
    (base_cmd "firefox" x_twitter DEFAULT_FORMAT_SELECTOR Script.downloads_dir
       Script.x_rate_limited).
Proof.
  split; [reflexivity|]. split; [reflexivity|].
  vm_compute. auto 20.
Qed.

(** *** Merging of the extractor arguments *)

Lemma plain_token_not_flag : forall t,
  plain_token t = true -> t <> extractor_flag.
Proof. intros t H ->. discriminate H. Qed.

Lemma plain_token_no_flag_prefix : forall t,
  plain_token t = true -> startswith t "--extractor-args" = false.
Proof.
  intros t H. unfold plain_token in H.
  apply andb_true_iff in H as [H _]. now apply negb_true_iff in H.
Qed.

Lemma plain_token_no_client_prefix : forall t,
  plain_token t = true -> startswith t "youtube:player-client=" = false.
Proof.
  intros t H. unfold plain_token in H.
  apply andb_true_iff in H as [_ H]. now apply negb_true_iff in H.
Qed.

Lemma front_of_plain : forall b p fs dir r,
  plain_token b = true -> plain_token fs = true -> plain_token dir = true ->
  plain_opt (sponsorblock_mark r) = true ->
  plain_opt (sponsorblock_remove r) = true ->
  Forall (fun t => plain_token t = true) (front_of b p fs dir r).
Proof.
  intros b p fs dir r Hb Hfs Hdir Hm Hr.
  unfold front_of, add_sleep_interval.
  assert (Hopt : forall flag o, plain_token flag = true -> plain_opt o = true ->
                 Forall (fun t => plain_token t = true) (opt_flag flag o)).
  { intros flag [v|] Hflag Ho; cbn; [|constructor].
    destruct (truthy v); repeat constructor; assumption. }
  apply Forall_app. split.
  - assert (Hbase : Forall (fun t => plain_token t = true)
                      (add_embed_chapters r (base_flags b fs dir))).
    { unfold add_embed_chapters, base_flags.
      destruct (embed_chapters r); [apply Forall_app; split|];
        repeat constructor; assumption. }
    destruct p; cbn [add_sponsorblock]; try exact Hbase.
    apply Forall_app. split; [exact Hbase|].
    apply Forall_app. split; apply Hopt; auto.
  - destruct (sleep_flags_cases r) as [->|(n & _ & _ & ->)]; [constructor|].
    repeat constructor. apply str_of_int_plain.
Qed.

Lemma update_first_skip : forall p f front l,
  Forall (fun t => p t = false) front ->
  update_first p f (front ++ l) = front ++ update_first p f l.
Proof.
  intros p f front l H. induction H as [|t front Ht _ IH]; [reflexivity|].
  cbn. now rewrite Ht, IH.
Qed.

Lemma existsb_none : forall (p : string -> bool) l,
  Forall (fun t => p t = false) l -> existsb p l = false.
Proof.
  intros p l H. induction H as [|t l Ht _ IH]; [reflexivity|].
  cbn. now rewrite Ht, IH.
Qed.

Lemma existing_yt_args_from_none : forall front i prev,
  prev <> extractor_flag ->
  Forall (fun t => t <> extractor_flag) front ->
  existing_yt_args_from i prev front = None.
Proof.
  induction front as [|t front IH]; intros i prev Hprev Hfront; [reflexivity|].
  inversion Hfront as [|? ? Ht Hrest]; subst. cbn [existing_yt_args_from].
  apply String.eqb_neq in Hprev. rewrite Hprev. cbn [andb].
  now apply IH.
Qed.

Lemma existing_yt_args_from_found : forall front i prev v,
  prev <> extractor_flag ->
  Forall (fun t => t <> extractor_flag) front ->
  contains "youtube" v = true ->
  existing_yt_args_from i prev (front ++ [extractor_flag; v]) =
  Some (i + length front + 1)%nat.
Proof.
  induction front as [|t front IH]; intros i prev v Hprev Hfront Hv.
  - cbn [app existing_yt_args_from length].
    apply String.eqb_neq in Hprev. rewrite Hprev. cbn [andb].
    rewrite String.eqb_refl, Hv. cbn [andb]. f_equal. lia.
  - inversion Hfront as [|? ? Ht Hrest]; subst.
    cbn [app existing_yt_args_from length].
    apply String.eqb_neq in Hprev. rewrite Hprev. cbn [andb].
    rewrite IH by assumption. f_equal. lia.
Qed.

Lemma existing_yt_args_none : forall front,
  Forall (fun t => t <> extractor_flag) front ->
  existing_yt_args front = None.
Proof.
  intros [|t front] H; [reflexivity|].
  inversion H; subst. cbn. now apply existing_yt_args_from_none.
Qed.

Lemma existing_yt_args_found : forall front v,
  Forall (fun t => t <> extractor_flag) front ->
  contains "youtube" v = true ->
  existing_yt_args (front ++ [extractor_flag; v]) = Some (length front + 1)%nat.
Proof.
  intros [|t front] v H Hv.
  - cbn [app existing_yt_args existing_yt_args_from length].
    rewrite String.eqb_refl, Hv. reflexivity.
  - inversion H; subst. cbn [app existing_yt_args length].
    rewrite existing_yt_args_from_found by assumption. f_equal; lia.
Qed.

Lemma update_nth_value : forall f front flag v,
  update_nth (length front + 1) f (front ++ [flag; v]) = front ++ [flag; f v].
Proof.
  intros f front flag v. induction front as [|t front IH]; [reflexivity|].
  cbn [length Nat.add app update_nth]. now rewrite IH.
Qed.

(** The loop over the token-provider clauses when an extractor argument
    exists: every clause lands in its value. *)
Lemma add_pot_args_merge : forall pots front v,
  fold_left (add_pot_arg (Some (length front + 1)%nat)) pots
    (front ++ [extractor_flag; v]) =
  front ++ [extractor_flag;
            fold_left (fun acc pot_arg => acc +++ ";" +++ pot_arg) pots v].
Proof.
  induction pots as [|pot pots IH]; intros front v; [reflexivity|].
  cbn [fold_left add_pot_arg]. rewrite update_nth_value. apply IH.
Qed.

(** The same loop when there is none: every clause gets a flag of its own. *)
Lemma add_pot_args_separate : forall pots l,
  fold_left (add_pot_arg None) pots l =
  l ++ flat_map (fun clause => [extractor_flag; clause]) pots.
Proof.
  induction pots as [|pot pots IH]; intros l; cbn [fold_left flat_map add_pot_arg].
  - now rewrite app_nil_r.
  - rewrite IH, <- app_assoc. reflexivity.
Qed.

Lemma append_assoc : forall a b c, (a +++ b) +++ c = a +++ (b +++ c).
Proof.
  induction a as [|h a IH]; intros b c; cbn; [reflexivity|]. now rewrite IH.
Qed.

Lemma fold_clauses_prefix : forall pots a b,
  fold_left (fun acc pot_arg => acc +++ ";" +++ pot_arg) pots (a +++ b) =
  a +++ fold_left (fun acc pot_arg => acc +++ ";" +++ pot_arg) pots b.
Proof.
  induction pots as [|pot pots IH]; intros a b; cbn [fold_left]; [reflexivity|].
  rewrite append_assoc. apply IH.
Qed.

Lemma concat_clauses : forall pots v,
  String.concat ";" (v :: pots) =
  fold_left (fun acc pot_arg => acc +++ ";" +++ pot_arg) pots v.
Proof.
  induction pots as [|pot pots IH]; intros v; [reflexivity|].
  cbn [fold_left]. rewrite fold_clauses_prefix.
  change (String.concat ";" (v :: pot :: pots))
    with (v +++ ";" +++ String.concat ";" (pot :: pots)).
  rewrite IH. rewrite (fold_clauses_prefix pots ";" pot). reflexivity.
Qed.

Lemma add_pot_args_found : forall r front v,
  Forall (fun t => t <> extractor_flag) front ->
  contains "youtube" v = true ->
  add_pot_args r (front ++ [extractor_flag; v]) =
  front ++ [extractor_flag; String.concat ";" (v :: pot_args r)].
Proof.
  intros r front v Hfront Hv. unfold add_pot_args.
  rewrite concat_clauses.
  destruct (pot_args r) as [|pot pots] eqn:E; [reflexivity|].
  rewrite existing_yt_args_found by assumption.
  apply add_pot_args_merge.
Qed.

Lemma add_pot_args_not_found : forall r front,
  Forall (fun t => t <> extractor_flag) front ->
  add_pot_args r front =
  front ++ flat_map (fun clause => [extractor_flag; clause]) (pot_args r).
Proof.
  intros r front Hfront. unfold add_pot_args.
  destruct (pot_args r) as [|pot pots] eqn:E; [now rewrite app_nil_r|].
  rewrite existing_yt_args_none by assumption.
  apply add_pot_args_separate.
Qed.

Lemma prefix_app : forall p s, prefix p (p +++ s) = true.
Proof.
  induction p as [|c p IH]; intros s; [apply prefix_nil|].
  cbn [String.append]. rewrite prefix_cons, Ascii.eqb_refl. apply IH.
Qed.

Lemma contains_app_self : forall p s, contains p (p +++ s) = true.
Proof.
  intros p s. destruct p as [|c p]; [apply contains_nil|].
  change (contains (String c p) (String c p +++ s))
    with (prefix (String c p) (String c p +++ s)
          || contains (String c p) (p +++ s)).
  now rewrite prefix_app.
Qed.

Lemma merge_two_clauses : forall a b pots,
  String.concat ";" ((a +++ ";" +++ b) :: pots) = String.concat ";" (a :: b :: pots).
Proof.
  intros a b pots. rewrite !concat_clauses. reflexivity.
Qed.

Lemma add_youtube_args_shape : forall r front,
  Forall (fun t => plain_token t = true) front ->
  add_youtube_args youtube r front =
  front ++
  (if truthy_opt (youtube_client r) || try_sabr r
   then [extractor_flag; merged_value r]
   else flat_map (fun clause => [extractor_flag; clause]) (pot_args r)).
Proof.
  intros r front Hplain.
  assert (Hflag : Forall (fun t => t <> extractor_flag) front).
  { eapply Forall_impl; [|exact Hplain]. apply plain_token_not_flag. }
  assert (Hnoflag : Forall (fun t => startswith t "--extractor-args" = false) front).
  { eapply Forall_impl; [|exact Hplain]. apply plain_token_no_flag_prefix. }
  assert (Hnoclient :
            Forall (fun t => startswith t "youtube:player-client=" = false) front).
  { eapply Forall_impl; [|exact Hplain]. apply plain_token_no_client_prefix. }
  cbn [add_youtube_args].
  unfold merged_value, wanted_clauses, add_youtube_client, add_sabr.
  destruct (youtube_client r) as [c|] eqn:Ec; cbn [truthy_opt];
    [destruct (truthy c) eqn:Et|]; cbn [orb app].
  - (* a client profile *)
    destruct (try_sabr r) eqn:Es.
    + rewrite existsb_app.
      replace (existsb (fun arg => startswith arg "--extractor-args")
                 [extractor_flag; "youtube:player-client=" +++ c])
        with true by reflexivity.
      rewrite orb_true_r.
      rewrite (update_first_skip _ _ front _ Hnoclient).
      cbn [update_first].
      replace (startswith extractor_flag "youtube:player-client=")
        with false by reflexivity.
      unfold startswith at 1. rewrite prefix_app.
      rewrite add_pot_args_found by (auto; reflexivity).
      cbn [app]. now rewrite merge_two_clauses.
    + rewrite add_pot_args_found by (auto; reflexivity). reflexivity.
  - (* the empty string as client profile *)
    destruct (try_sabr r) eqn:Es.
    + rewrite (existsb_none _ _ Hnoflag).
      rewrite add_pot_args_found by (auto; reflexivity). reflexivity.
    + now apply add_pot_args_not_found.
  - (* no client profile *)
    destruct (try_sabr r) eqn:Es.
    + rewrite (existsb_none _ _ Hnoflag).
      rewrite add_pot_args_found by (auto; reflexivity). reflexivity.
    + now apply add_pot_args_not_found.
Qed.

(** C2 (as amended): on a youtube request whose other option values do not
    themselves look like extractor arguments, the builder puts no
    extractor-argument flag before the platform-specific part, and then:
    when a client profile or the streaming mode is active, exactly one
    flag, whose value holds every requested clause (player client,
    streaming mode, token-provider URL, token-provider script) joined by
    semicolons; when neither is active, one flag for each token-provider
    clause supplied, so two flags when both the URL and the script path
    are given. *)
Theorem extractor_args_merged :
  forall b fs dir r,
    plain_token b = true -> plain_token fs = true -> plain_token dir = true ->
    plain_opt (sponsorblock_mark r) = true ->
    plain_opt (sponsorblock_remove r) = true ->
    let front := front_of b youtube fs dir r in
    ~ In extractor_flag front /\
    base_cmd b youtube fs dir r =
    front ++
    (if truthy_opt (youtube_client r) || try_sabr r
     then [extractor_flag; merged_value r]
     else flat_map (fun clause => [extractor_flag; clause]) (pot_args r))
    ++ extra_args r ++ [url r].
Proof.
  intros b fs dir r Hb Hfs Hdir Hm Hr front.
  pose proof (front_of_plain b youtube fs dir r Hb Hfs Hdir Hm Hr) as Hplain.
  fold front in Hplain. split.
  - intros Hin. rewrite Forall_forall in Hplain.
    specialize (Hplain _ Hin). discriminate Hplain.
  - unfold base_cmd. fold (front_of b youtube fs dir r). fold front.
    rewrite (add_youtube_args_shape r front Hplain).
    now rewrite <- app_assoc.
Qed.

Lemma extractor_args_merged_witness :
  base_cmd "firefox" youtube DEFAULT_FORMAT_SELECTOR Script.downloads_dir
    Script.all_clauses =
  front_of "firefox" youtube DEFAULT_FORMAT_SELECTOR Script.downloads_dir
    Script.all_clauses
  ++ ["--extractor-args";
      "youtube:player-client=mweb;youtube:formats=duplicate;" +++
      "youtubepot-bgutilhttp:base_url=http://127.0.0.1:8080;" +++
      "youtubepot-bgutilscript:script_path=/opt/pot/generate.js"]
  ++ ["--no-playlist"; "https://youtu.be/abc123"].
Proof.
  exact (proj2 (extractor_args_merged "firefox" DEFAULT_FORMAT_SELECTOR
                  Script.downloads_dir Script.all_clauses
                  eq_refl eq_refl eq_refl eq_refl eq_refl)).
Defined.

(** C2, counterexample: a youtube request with both token-provider
    overrides and neither a client profile nor the streaming mode: the
    command carries the extractor-argument flag twice, each clause in a
    value of its own. *)
Lemma extractor_flag_counterexample :
  detect_platform (url Script.both_providers) = youtube /\
  base_cmd "firefox" youtube DEFAULT_FORMAT_SELECTOR Script.downloads_dir
    Script.both_providers =
  base_flags "firefox" DEFAULT_FORMAT_SELECTOR Script.downloads_dir
  ++ ["--extractor-args"; "youtubepot-bgutilhttp:base_url=http://127.0.0.1:8080";
      "--extractor-args"; "youtubepot-bgutilscript:script_path=/opt/pot/generate.js";
      "https://youtu.be/abc123"] /\
  count_occ string_dec
    (base_cmd "firefox" youtube DEFAULT_FORMAT_SELECTOR Script.downloads_dir
       Script.both_providers) "--extractor-args" = 2%nat.
Proof.
  split; [reflexivity|]. split; [reflexivity|]. vm_compute. reflexivity.
Qed.

(** ** Steps that make no download attempt *)

Section Quiet.

Context {World : Type}.

Lemma quiet_ret : forall A (a : A), quiet (ret (World := World) a).
Proof. intros A a st. split; [reflexivity|discriminate]. Qed.

Lemma quiet_raise : forall A e, quiet (raise (World := World) (A := A) e).
Proof. intros A e st. split; [reflexivity|discriminate]. Qed.

Lemma quiet_log : forall e, quiet (log (World := World) e).
Proof. intros e st. split; [reflexivity|discriminate]. Qed.

Lemma quiet_observe : forall A (f : World -> A), quiet (observe f).
Proof. intros A f st. split; [reflexivity|discriminate]. Qed.

Lemma quiet_act : forall A (f : World -> A * World), quiet (act f).
Proof.
  intros A f st. unfold act. destruct (f (world st)) as [a w].
  split; [reflexivity|discriminate].
Qed.

Lemma quiet_bind : forall A B (m : M World A) (f : A -> M World B),
  quiet m -> (forall a, quiet (f a)) -> quiet (bind m f).
Proof.
  intros A B m f Hm Hf st. unfold bind.
  destruct (Hm st) as [Hatt Hfuel].
  destruct (m st) as [[a|e|] st1]; cbn [fst snd] in *.
  - destruct (Hf a st1) as [Hatt' Hfuel']. split; [congruence|assumption].
  - split; [assumption|discriminate].
  - contradiction.
Qed.

(** What a [bind] returned, when its first step is quiet. *)
Lemma bind_quiet_inv : forall A B (m : M World A) (f : A -> M World B) st res st',
  quiet m ->
  bind m f st = (res, st') ->
  (exists e, res = Raise e /\ attempts st' = attempts st) \/
  (exists a st1, attempts st1 = attempts st /\ f a st1 = (res, st')).
Proof.
  intros A B m f st res st' Hm H. unfold bind in H.
  destruct (Hm st) as [Hatt Hfuel].
  destruct (m st) as [[a|e|] st1]; cbn [fst snd] in *.
  - right. exists a, st1. split; assumption.
  - left. injection H as <- <-. exists e. split; [reflexivity|assumption].
  - contradiction.
Qed.

End Quiet.

Ltac quiet_step :=
  match goal with
  | |- quiet (bind _ _) => apply quiet_bind; [|intros ?]
  | |- quiet (ret _) => apply quiet_ret
  | |- quiet (raise _) => apply quiet_raise
  | |- quiet (log _) => apply quiet_log
  | |- quiet (observe _) => apply quiet_observe
  | |- quiet (act _) => apply quiet_act
  | |- quiet (if ?b then _ else _) => destruct b
  | |- quiet (match ?v with _ => _ end) => destruct v
  end.

Ltac quiet_tac := repeat quiet_step.

Section QuietMethods.

Context {World : Type} (env : Env World).

Lemma quiet_validate_dependencies : forall self,
  quiet (_validate_dependencies env self).
Proof. intros self. unfold _validate_dependencies. quiet_tac. Qed.

Lemma quiet_check_pot_plugin_installed :
  quiet (_check_pot_plugin_installed env).
Proof. unfold _check_pot_plugin_installed. quiet_tac. Qed.

Lemma quiet_validate_pot_provider : forall url mode,
  quiet (_validate_pot_provider env url mode).
Proof.
  intros url mode.
  unfold _validate_pot_provider, _check_pot_plugin_installed,
    _check_pot_server_running.
  quiet_tac.
Qed.

Lemma quiet_validate_youtube_requirements : forall url,
  quiet (_validate_youtube_requirements env url).
Proof.
  intros url.
  unfold _validate_youtube_requirements, _check_javascript_runtime. quiet_tac.
Qed.

Lemma quiet_run_command : forall cmd capture,
  quiet (_run_command env cmd capture).
Proof. intros cmd capture. unfold _run_command. quiet_tac. Qed.

Lemma quiet_get_video_info : forall self url,
  quiet (get_video_info env self url).
Proof.
  intros self url. unfold get_video_info.
  apply quiet_bind; [apply quiet_run_command|intros [success output]].
  quiet_tac.
Qed.

Lemma quiet_check_premium_formats : forall self url,
  quiet (check_premium_formats env self url).
Proof.
  intros self url. unfold check_premium_formats.
  apply quiet_bind; [apply quiet_log|intros _].
  apply quiet_bind; [apply quiet_run_command|intros [success output]].
  quiet_tac.
Qed.

Lemma quiet_resolve_format_selector : forall self platform r,
  quiet (resolve_format_selector env self platform r).
Proof.
  intros self platform r. unfold resolve_format_selector.
  apply quiet_bind; [|intros fs; apply quiet_ret].
  destruct (_ && _ && _); [|apply quiet_ret].
  apply quiet_bind; [apply quiet_check_premium_formats|intros premium_format].
  quiet_tac.
Qed.

Lemma quiet_resolve_output_dir : forall self r,
  quiet (resolve_output_dir env self r).
Proof.
  intros self r. unfold resolve_output_dir.
  apply quiet_bind; [apply quiet_log|intros _].
  apply quiet_bind; [apply quiet_get_video_info|intros info].
  quiet_tac.
Qed.

Lemma quiet_check_po_token_error : forall platform error_output,
  quiet (check_po_token_error env platform error_output).
Proof.
  intros platform error_output.
  unfold check_po_token_error, _check_pot_plugin_installed. quiet_tac.
Qed.

End QuietMethods.

(** ** The attempts of a call of [download_video] *)

Section Traces.

Context {World : Type} (env : Env World).

Lemma run_download_spec : forall cmd st,
  exists o st',
    run_download env cmd st = (Ret o, st') /\
    attempts st' = attempts st ++ [{| argv := cmd; outcome := o |}] /\
    no_output o.
Proof.
  intros cmd st. unfold run_download, bind, log, act, record_attempt, ret.
  cbn [world attempts logs].
  destruct (run_argv env (world st) cmd) as [p w]. cbn.
  eexists _, _. split; [reflexivity|]. split; [reflexivity|].
  destruct p as [rc out err|]; cbn; [destruct (rc =? 0)%Z|]; exact I.
Qed.

Lemma check_po_token_error_no_output : forall platform,
  check_po_token_error env platform (error_output_of None) = ret false.
Proof.
  intros platform. unfold check_po_token_error. cbn [error_output_of].
  replace (any_phrase po_token_phrases EmptyString) with false by reflexivity.
  now rewrite andb_false_r.
Qed.

(** Without diagnostic text the handler never sees a PO Token or SABR
    phrase: what is left of it is the loop over the fallback clients,
    entered when no client profile was asked for. *)
Lemma handler_no_output : forall again r fs rc st,
  on_called_process_error env again (detect_platform (url r)) r fs rc None st =
  (if retries r then
     ok <- try_clients
             (fun client =>
                log (TryingFallbackClient client) ;;
                again (fallback_request r fs client))
             (available_clients (youtube_client r)) ;;
     if ok then ret true else log (DownloadFailed rc None) ;; ret false
   else log (DownloadFailed rc None) ;; ret false) st.
Proof.
  intros again r fs rc st. unfold on_called_process_error.
  rewrite check_po_token_error_no_output.
  cbn [error_output_of].
  replace (any_phrase sabr_phrases EmptyString) with false by reflexivity.
  rewrite andb_false_r. cbn [andb orb]. fold (retries r).
  reflexivity.
Qed.

(** A call of [download_video] either raises before its attempt, or makes
    the attempt and goes on according to its outcome. *)
Lemma download_video_first_attempt : forall fuel self r st res st',
  download_video env (S fuel) self r st = (res, st') ->
  (exists e, res = Raise e /\ attempts st' = attempts st) \/
  (exists fs dir o st2,
      let first := {| argv := base_cmd (cookies_browser self)
                                (detect_platform (url r)) fs dir r;
                      outcome := o |} in
      attempts st2 = attempts st ++ [first] /\
      no_output o /\
      match o with
      | Completed _ => (log DownloadCompleted ;; ret true) st2
      | TimeoutExpired => (log DownloadTimedOut ;; ret false) st2
      | CalledProcessError returncode stderr =>
          on_called_process_error env (download_video env fuel self)
            (detect_platform (url r)) r fs returncode stderr st2
      end = (res, st')).
Proof.
  intros fuel self r st res st' H. cbn [download_video] in H.
  apply bind_quiet_inv in H; [|apply quiet_log].
  destruct H as [(e & -> & Hatt)|(a1 & st1 & Hatt1 & H)]; [left; eauto|].
  apply bind_quiet_inv in H; [|apply quiet_validate_youtube_requirements].
  destruct H as [(e & -> & Hatt)|(a2 & st2 & Hatt2 & H)];
    [left; exists e; split; congruence|].
  apply bind_quiet_inv in H; [|apply quiet_validate_pot_provider].
  destruct H as [(e & -> & Hatt)|(a3 & st3 & Hatt3 & H)];
    [left; exists e; split; congruence|].
  apply bind_quiet_inv in H; [|apply quiet_resolve_format_selector].
  destruct H as [(e & -> & Hatt)|(fs & st4 & Hatt4 & H)];
    [left; exists e; split; congruence|].
  apply bind_quiet_inv in H; [|apply quiet_resolve_output_dir].
  destruct H as [(e & -> & Hatt)|(dir & st5 & Hatt5 & H)];
    [left; exists e; split; congruence|].
  unfold bind in H at 1.
  destruct (run_download_spec
              (base_cmd (cookies_browser self) (detect_platform (url r)) fs dir r)
              st5) as (o & st6 & Hrun & Hatt6 & Hno).
  rewrite Hrun in H.
  right. exists fs, dir, o, st6. cbv zeta.
  split; [congruence|]. split; [exact Hno|destruct o; exact H].
Qed.

(** A call with the fallback off makes one attempt at most. *)
Lemma download_video_single : forall fuel self r st res st',
  try_fallback_clients r = false ->
  download_video env (S fuel) self r st = (res, st') ->
  exists new,
    attempts st' = attempts st ++ new /\
    single_attempt (cookies_browser self) r new res.
Proof.
  intros fuel self r st res st' Hoff H.
  apply download_video_first_attempt in H.
  destruct H as [(e & -> & Hatt)|(fs & dir & o & st2 & Hatt & Hno & H)].
  { exists []. rewrite app_nil_r. split; [exact Hatt|]. left. eauto. }
  cbv zeta in Hatt.
  eexists. split; [|right; exists fs, dir, o; split; [reflexivity|split; [exact Hno|]]].
  - destruct o as [[out|]|rc [err|]|]; try contradiction.
    + injection H as _ <-. exact Hatt.
    + rewrite handler_no_output in H.
      unfold retries in H. rewrite Hoff, andb_false_r in H. cbn [andb] in H.
      injection H as _ <-. exact Hatt.
    + injection H as _ <-. exact Hatt.
  - destruct o as [[out|]|rc [err|]|]; try contradiction.
    + injection H as <- _. reflexivity.
    + rewrite handler_no_output in H.
      unfold retries in H. rewrite Hoff, andb_false_r in H. cbn [andb] in H.
      injection H as <- _. reflexivity.
    + injection H as <- _. reflexivity.
Qed.

Lemma fallback_trace_fuel : forall browser r fs clients new,
  ~ fallback_trace browser r fs clients new OutOfFuel.
Proof.
  intros browser r fs clients. induction clients as [|c clients IH]; intros new H.
  - destruct H as [_ H]. discriminate H.
  - destruct H as (new1 & res1 & Hs & H).
    destruct res1 as [[|]|e|]; try (destruct H as [_ H]; discriminate H).
    + destruct H as (new2 & _ & H). exact (IH _ H).
    + exact H.
Qed.

(** The loop over the fallback clients, when each of its calls makes one
    attempt at most. *)
Lemma try_clients_trace :
  forall (again : Request -> M World bool) browser r fs,
    (forall client st res st',
        again (fallback_request r fs client) st = (res, st') ->
        exists new,
          attempts st' = attempts st ++ new /\
          single_attempt browser (fallback_request r fs client) new res) ->
    forall clients st res st',
      try_clients
        (fun client =>
           log (TryingFallbackClient client) ;;
           again (fallback_request r fs client)) clients st = (res, st') ->
      exists new,
        attempts st' = attempts st ++ new /\
        fallback_trace browser r fs clients new res.
Proof.
  intros again browser r fs Hagain clients.
  induction clients as [|c clients IH]; intros st res st' H.
  - injection H as <- <-. exists []. rewrite app_nil_r. repeat split.
  - cbn [try_clients] in H. unfold bind at 1 2 in H. cbn [log] in H.
    destruct (again (fallback_request r fs c) _) as [res1 st1] eqn:E1.
    apply Hagain in E1. destruct E1 as (new1 & Hatt1 & Hs). cbn [attempts] in Hatt1.
    destruct res1 as [[|]|e|].
    + injection H as <- <-. exists new1. split; [exact Hatt1|].
      exists new1, (Ret true). split; [exact Hs|]. split; reflexivity.
    + apply IH in H. destruct H as (new2 & Hatt2 & Ht).
      exists (new1 ++ new2). split.
      * rewrite Hatt2, Hatt1. now rewrite app_assoc.
      * exists new1, (Ret false). split; [exact Hs|]. exists new2. split; [reflexivity|exact Ht].
    + injection H as <- <-. exists new1. split; [exact Hatt1|].
      exists new1, (Raise e). split; [exact Hs|]. split; reflexivity.
    + exfalso. destruct Hs as [(_ & e & He)|(fs' & dir & o & _ & _ & He)]; discriminate He.
Qed.

(** The attempts of a call of [download_video] that has fuel for its
    nested calls. *)
Theorem download_video_trace : forall fuel self r st res st',
  download_video env (S (S fuel)) self r st = (res, st') ->
  exists new,
    attempts st' = attempts st ++ new /\
    download_trace (cookies_browser self) r new res.
Proof.
  intros fuel self r st res st' H.
  apply download_video_first_attempt in H.
  destruct H as [(e & -> & Hatt)|(fs & dir & o & st2 & Hatt & Hno & H)].
  { exists []. rewrite app_nil_r. split; [exact Hatt|]. left. eauto. }
  cbv zeta in Hatt.
  destruct o as [[out|]|rc [err|]|]; try contradiction.
  - injection H as <- <-. eexists. split; [exact Hatt|].
    right. exists fs, dir, (Completed None). split; [exact I|]. split; reflexivity.
  - rewrite handler_no_output in H.
    destruct (retries r) eqn:Eretry.
    + unfold bind at 1 in H.
      destruct (try_clients _ _ st2) as [res1 st3] eqn:Etry.
      apply (try_clients_trace (download_video env (S fuel) self)
               (cookies_browser self)) in Etry.
      2:{ intros client s rs s' Hc. eapply download_video_single; [reflexivity|exact Hc]. }
      destruct Etry as (tail & Hatt3 & Htrace).
      assert (Hres : res = res1 /\ attempts st' = attempts st3).
      { destruct res1 as [[|]|e|].
        - injection H as <- <-. split; reflexivity.
        - injection H as <- <-. split; reflexivity.
        - injection H as <- <-. split; reflexivity.
        - exfalso. exact (fallback_trace_fuel _ _ _ _ _ Htrace). }
      destruct Hres as [-> Hatt'].
      exists ({| argv := base_cmd (cookies_browser self)
                           (detect_platform (url r)) fs dir r;
                 outcome := CalledProcessError rc None |} :: tail).
      split.
      * rewrite Hatt', Hatt3, Hatt. rewrite <- app_assoc. reflexivity.
      * right. exists fs, dir, (CalledProcessError rc None). split; [exact I|].
        cbv zeta. rewrite Eretry. exists tail. split; [reflexivity|exact Htrace].
    + injection H as <- <-. eexists. split; [exact Hatt|].
      right. exists fs, dir, (CalledProcessError rc None). split; [exact I|].
      cbv zeta. rewrite Eretry. split; reflexivity.
  - injection H as <- <-. eexists. split; [exact Hatt|].
    right. exists fs, dir, TimeoutExpired. split; [exact I|]. split; reflexivity.
Qed.

End Traces.

(** ** The bound on the download attempts *)

Lemma single_attempt_length : forall browser r new res,
  single_attempt browser r new res -> (length new <= 1)%nat.
Proof.
  intros browser r new res [(-> & _)|(fs & dir & o & -> & _)]; cbn; lia.
Qed.

Lemma fallback_trace_length : forall browser r fs clients new res,
  fallback_trace browser r fs clients new res ->
  (length new <= length clients)%nat.
Proof.
  intros browser r fs clients.
  induction clients as [|c clients IH]; intros new res H.
  - destruct H as [-> _]. cbn. lia.
  - destruct H as (new1 & res1 & Hs & H).
    apply single_attempt_length in Hs. cbn [length].
    destruct res1 as [[|]|e|].
    + destruct H as [-> _]. lia.
    + destruct H as (new2 & -> & H). apply IH in H.
      rewrite length_app. lia.
    + destruct H as [-> _]. lia.
    + contradiction.
Qed.

Lemma available_clients_length : forall client,
  (length (available_clients client) <= length YOUTUBE_CLIENTS)%nat.
Proof. intros client. apply filter_length_le. Qed.

Lemma download_trace_length : forall browser r new res,
  download_trace browser r new res ->
  (length new <= length YOUTUBE_CLIENTS + 1)%nat /\ res <> OutOfFuel.
Proof.
  intros browser r new res [(-> & e & ->)|(fs & dir & o & Hno & H)].
  { split; [cbn; lia|discriminate]. }
  cbv zeta in H. destruct o as [out|rc err|].
  - destruct H as [-> ->]. split; [cbn; lia|discriminate].
  - destruct (retries r).
    + destruct H as (tail & -> & H). split.
      * apply fallback_trace_length in H.
        pose proof (available_clients_length (youtube_client r)).
        cbn [length] in *. lia.
      * intros ->. exact (fallback_trace_fuel _ _ _ _ _ H).
    + destruct H as [-> ->]. split; [cbn; lia|discriminate].
  - destruct H as [-> ->]. split; [cbn; lia|discriminate].
Qed.

Section Fuel.

Context {World : Type} (env : Env World).

Lemma bind_ext : forall A B (m : M World A) (f g : A -> M World B),
  (forall a st, f a st = g a st) ->
  forall st, bind m f st = bind m g st.
Proof.
  intros A B m f g H st. unfold bind.
  destruct (m st) as [[a|e|] st1]; [apply H|reflexivity|reflexivity].
Qed.

Lemma bind_ext2 : forall A B (m1 m2 : M World A) (f g : A -> M World B),
  (forall st, m1 st = m2 st) ->
  (forall a st, f a st = g a st) ->
  forall st, bind m1 f st = bind m2 g st.
Proof.
  intros A B m1 m2 f g Hm H st. unfold bind. rewrite Hm.
  destruct (m2 st) as [[a|e|] st1]; [apply H|reflexivity|reflexivity].
Qed.

Lemma try_clients_ext : forall (a1 a2 : string -> M World bool),
  (forall c st, a1 c st = a2 c st) ->
  forall clients st, try_clients a1 clients st = try_clients a2 clients st.
Proof.
  intros a1 a2 H clients. induction clients as [|c clients IH]; intros st.
  - reflexivity.
  - cbn [try_clients]. unfold bind. rewrite H.
    destruct (a2 c st) as [[[|]|e|] st1]; [reflexivity|apply IH|reflexivity|reflexivity].
Qed.

(** The handler only calls the method for requests with the fallback off. *)
Lemma handler_ext : forall (again1 again2 : Request -> M World bool)
                           platform r fs rc stderr,
  (forall r' st, try_fallback_clients r' = false -> again1 r' st = again2 r' st) ->
  forall st,
    on_called_process_error env again1 platform r fs rc stderr st =
    on_called_process_error env again2 platform r fs rc stderr st.
Proof.
  intros again1 again2 platform r fs rc stderr H st.
  unfold on_called_process_error.
  apply bind_ext. intros po st1. apply bind_ext. intros _ st2.
  destruct (_ && _ && _); [|reflexivity].
  apply bind_ext2.
  - apply try_clients_ext. intros c s. apply bind_ext. intros _ s1. now apply H.
  - intros [|] s; [reflexivity|].
    destruct (_ && _); [|reflexivity].
    apply bind_ext. intros _ s1. now apply H.
Qed.

Lemma download_video_ext : forall fuel1 fuel2 self r,
  (forall r' st, try_fallback_clients r' = false ->
                 download_video env fuel1 self r' st =
                 download_video env fuel2 self r' st) ->
  forall st,
    download_video env (S fuel1) self r st = download_video env (S fuel2) self r st.
Proof.
  intros fuel1 fuel2 self r H st. cbn [download_video].
  apply bind_ext. intros _ st1. apply bind_ext. intros _ st2.
  apply bind_ext. intros _ st3. apply bind_ext. intros fs st4.
  apply bind_ext. intros dir st5. apply bind_ext. intros o st6.
  destruct o as [out|rc stderr|]; try reflexivity.
  now apply handler_ext.
Qed.

(** With the fallback off the nested calls are never reached, so one unit
    of fuel is as good as any larger amount. *)
Lemma download_video_fuel_off : forall fuel self r st,
  try_fallback_clients r = false ->
  download_video env (S fuel) self r st = download_video env 1 self r st.
Proof.
  intros fuel self r st Hoff. cbn [download_video].
  apply bind_ext. intros _ st1. apply bind_ext. intros _ st2.
  apply bind_ext. intros _ st3. apply bind_ext. intros fs st4.
  apply bind_ext. intros dir st5. apply bind_ext. intros o st6.
  destruct o as [out|rc stderr|]; try reflexivity.
  unfold on_called_process_error.
  apply bind_ext. intros po s1. apply bind_ext. intros _ s2.
  rewrite Hoff, andb_false_r. reflexivity.
Qed.

Lemma download_video_fuel : forall fuel self r st,
  download_video env (S (S fuel)) self r st = download_video env 2 self r st.
Proof.
  intros fuel self r st. apply download_video_ext.
  intros r' s Hoff. now rewrite (download_video_fuel_off fuel).
Qed.

End Fuel.

(** C1: whatever the world, the request and what the attempts print or
    return, a call of [download_video] ends (two nested levels of fuel are
    enough, and more fuel changes nothing) and issues at most
    [|YOUTUBE_CLIENTS| + 1] download attempts; every nested call has the
    fallback forced off. *)
Theorem download_attempts_bounded :
  forall {World} (env : Env World) fuel self r st,
    let run := download_video env (S (S fuel)) self r st in
    fst run <> OutOfFuel /\
    (exists new,
        attempts (snd run) = attempts st ++ new /\
        (length new <= length YOUTUBE_CLIENTS + 1)%nat) /\
    run = download_video env 2 self r st /\
    (forall fs client,
        try_fallback_clients (fallback_request r fs client) = false) /\
    (forall fs, try_fallback_clients (sabr_request r fs) = false).
Proof.
  intros World env fuel self r st run.
  destruct run as [res st'] eqn:Erun. subst run. cbn [fst snd].
  destruct (download_video_trace env fuel self r st res st' Erun)
    as (new & Hatt & Htrace).
  apply download_trace_length in Htrace. destruct Htrace as [Hlen Hfuel].
  split; [exact Hfuel|]. split; [exists new; split; assumption|].
  split; [rewrite <- Erun; apply download_video_fuel|].
  split; reflexivity.
Qed.

(** The bound is reached: a youtube URL, no client profile, every attempt
    fails. *)
Example eight_attempts :
  let run := download_video Script.std_env 2 Script.firefox
               (Script.plain "https://youtu.be/abc123") (Script.start []) in
  fst run = Ret false /\ length (attempts (snd run)) = 8%nat.
Proof. vm_compute. split; reflexivity. Qed.

(** ** The dependency check *)

(** C9: when the dependency check fails, because the Python version is
    below 3.10 or because [yt-dlp] is not found on the search path, the
    constructor raises [YtDlpWrapperError] before [download_video] is
    called: the process exits with status 1 and the list of download
    attempts is what it was. *)
Theorem dependency_failure_aborts :
  forall {World} (env : Env World) fuel args extra st,
    dependency_check_fails env (world st) ->
    exists msg,
      _validate_dependencies env {| cookies_browser := args_browser args |} st =
      (Raise (YtDlpWrapperError msg), st) /\
      main_body env fuel args extra st = (Raise (YtDlpWrapperError msg), st) /\
      main env fuel args extra st =
      (Some 1%Z,
       {| world := world st; attempts := attempts st;
          logs := logs st ++ [FatalError (YtDlpWrapperError msg)] |}).
Proof.
  intros World env fuel args extra st Hfail.
  unfold main, main_body, bind, _validate_dependencies, dependency_check_fails in *.
  destruct (sys_version_info env) as [major minor]. cbn [fst snd] in Hfail.
  destruct ((major <? 3)%nat || ((major =? 3)%nat && (minor <? 10)%nat)) eqn:Eold.
  - eexists. cbn. repeat split.
  - apply orb_false_iff in Eold as [E1 E2].
    apply Nat.ltb_ge in E1.
    destruct Hfail as [Hlt|[[Heq Hlt]|Hwhich]]; [lia| |].
    + subst major. rewrite Nat.eqb_refl in E2. cbn [andb] in E2.
      apply Nat.ltb_ge in E2. lia.
    + unfold observe. cbn. rewrite Hwhich. cbn. eexists. repeat split.
Qed.

Lemma dependency_failure_aborts_witness :
  exists msg,
    main (Script.env (3, 12)%nat false EmptyString) 2 Script.bare_args []
      (Script.start [Script.success]) =
    (Some 1%Z,
     {| world := [Script.success]; attempts := [];
        logs := [FatalError (YtDlpWrapperError msg)] |})
  /\ exists msg',
    main (Script.env (3, 9)%nat true EmptyString) 2 Script.bare_args []
      (Script.start [Script.success]) =
    (Some 1%Z,
     {| world := [Script.success]; attempts := [];
        logs := [FatalError (YtDlpWrapperError msg')] |}).
Proof.
  destruct (dependency_failure_aborts
              (Script.env (3, 12)%nat false EmptyString) 2 Script.bare_args []
              (Script.start [Script.success]))
    as (msg & _ & _ & Hmain).
  { right. right. reflexivity. }
  destruct (dependency_failure_aborts
              (Script.env (3, 9)%nat true EmptyString) 2 Script.bare_args []
              (Script.start [Script.success]))
    as (msg' & _ & _ & Hmain').
  { right. left. cbn. split; [reflexivity|lia]. }
  exists msg. split; [exact Hmain|]. exists msg'. exact Hmain'.
Defined.

(** With the dependencies in place the same invocation does download. *)
Example dependencies_present_run :
  let run := main Script.std_env 2 Script.bare_args []
               (Script.start [Script.success]) in
  fst run = Some 0%Z /\ length (attempts (snd run)) = 1%nat.
Proof. vm_compute. split; reflexivity. Qed.

(** ** The token-provider mode *)

Section Alike.

Context {World : Type}.

Lemma same_run_refl : forall st : State World, same_run st st.
Proof. intros st. split; reflexivity. Qed.

Lemma alike_ret : forall A (a : A), alike (ret (World := World) a) (ret a).
Proof. intros A a st1 st2 H. split; [reflexivity|exact H]. Qed.

Lemma alike_raise : forall A e,
  alike (raise (World := World) (A := A) e) (raise e).
Proof. intros A e st1 st2 H. split; [reflexivity|exact H]. Qed.

Lemma alike_out_of_fuel : forall A,
  alike (out_of_fuel (World := World) (A := A)) out_of_fuel.
Proof. intros A st1 st2 H. split; [reflexivity|exact H]. Qed.

Lemma alike_log : forall e1 e2, alike (log (World := World) e1) (log e2).
Proof. intros e1 e2 st1 st2 [Hw Ha]. repeat split; assumption. Qed.

Lemma alike_observe : forall A (f : World -> A), alike (observe f) (observe f).
Proof.
  intros A f st1 st2 [Hw Ha]. unfold observe. cbn [fst snd].
  rewrite Hw. repeat split; assumption.
Qed.

Lemma alike_act : forall A (f : World -> A * World), alike (act f) (act f).
Proof.
  intros A f st1 st2 [Hw Ha]. unfold act. rewrite Hw.
  destruct (f (world st2)) as [a w]. repeat split; assumption.
Qed.

Lemma alike_record_attempt : forall a,
  alike (record_attempt (World := World) a) (record_attempt a).
Proof.
  intros a st1 st2 [Hw Ha]. unfold record_attempt. cbn.
  repeat split; cbn; congruence.
Qed.

Lemma alike_bind : forall A B (m1 m2 : M World A) (f1 f2 : A -> M World B),
  alike m1 m2 -> (forall a, alike (f1 a) (f2 a)) ->
  alike (bind m1 f1) (bind m2 f2).
Proof.
  intros A B m1 m2 f1 f2 Hm Hf st1 st2 H. unfold bind.
  destruct (Hm st1 st2 H) as [Hres Hst].
  destruct (m1 st1) as [res1 s1], (m2 st2) as [res2 s2]. cbn [fst snd] in *.
  subst res2. destruct res1 as [a|e|].
  - apply Hf. exact Hst.
  - split; [reflexivity|exact Hst].
  - split; [reflexivity|exact Hst].
Qed.

Lemma alike_try_clients : forall (a1 a2 : string -> M World bool),
  (forall c, alike (a1 c) (a2 c)) ->
  forall clients, alike (try_clients a1 clients) (try_clients a2 clients).
Proof.
  intros a1 a2 H clients. induction clients as [|c clients IH]; cbn [try_clients].
  - apply alike_ret.
  - apply alike_bind; [apply H|]. intros [|]; [apply alike_ret|exact IH].
Qed.

(** Two computations that only add to the log and return the same value. *)
Lemma silent_alike : forall A (v : A) (m1 m2 : M World A),
  silent v m1 -> silent v m2 -> alike m1 m2.
Proof.
  intros A v m1 m2 H1 H2 st1 st2 [Hw Ha].
  destruct (H1 st1) as [R1 [W1 A1]], (H2 st2) as [R2 [W2 A2]].
  split; [congruence|]. split; congruence.
Qed.

Lemma silent_ret : forall A (v : A), silent v (ret (World := World) v).
Proof. intros A v st. split; [reflexivity|apply same_run_refl]. Qed.

Lemma silent_log_then : forall A (v : A) e (m : M World A),
  silent v m -> silent v (log e ;; m).
Proof.
  intros A v e m H st. unfold bind, log.
  destruct (H {| world := world st; attempts := attempts st;
                 logs := logs st ++ [e] |}) as [R [W Ha]].
  split; [exact R|]. split; [exact W|exact Ha].
Qed.

Lemma silent_observe_then : forall A B (v : B) (f : World -> A)
                                   (k : A -> M World B),
  (forall a, silent v (k a)) -> silent v (a <- observe f ;; k a).
Proof.
  intros A B v f k H st. unfold bind, observe. apply H.
Qed.

End Alike.

Ltac alike_step :=
  match goal with
  | |- alike (bind _ _) (bind _ _) => apply alike_bind; [|intros ?]
  | |- alike (ret _) (ret _) => apply alike_ret
  | |- alike (raise _) (raise _) => apply alike_raise
  | |- alike (log _) (log _) => apply alike_log
  | |- alike (observe _) (observe _) => apply alike_observe
  | |- alike (act _) (act _) => apply alike_act
  | |- alike (record_attempt _) (record_attempt _) => apply alike_record_attempt
  | |- alike (if ?b then _ else _) (if ?b then _ else _) => destruct b
  | |- alike (match ?v with _ => _ end) (match ?v with _ => _ end) => destruct v
  end.

Ltac alike_tac := repeat alike_step.

Section Mode.

Context {World : Type} (env : Env World).

(** The validation of the token-provider mode returns [None] on every
    path and touches neither the world nor the attempts. *)
Lemma silent_validate_pot_provider : forall url mode,
  silent None (_validate_pot_provider env url mode).
Proof.
  intros url mode. unfold _validate_pot_provider.
  destruct (detect_platform url); try apply silent_ret.
  unfold _check_pot_plugin_installed, _check_pot_server_running.
  apply silent_observe_then. intros plugin.
  destruct (negb plugin); [apply silent_log_then, silent_ret|].
  destruct (opt_eqb mode "script"); [apply silent_log_then, silent_ret|].
  apply silent_observe_then. intros [|]; apply silent_log_then, silent_ret.
Qed.

Lemma alike_validate_youtube_requirements : forall url,
  alike (_validate_youtube_requirements env url)
        (_validate_youtube_requirements env url).
Proof.
  intros url. unfold _validate_youtube_requirements, _check_javascript_runtime.
  alike_tac.
Qed.

Lemma alike_run_command : forall cmd capture,
  alike (_run_command env cmd capture) (_run_command env cmd capture).
Proof. intros cmd capture. unfold _run_command. alike_tac. Qed.

Lemma alike_resolve_format_selector : forall self platform r,
  alike (resolve_format_selector env self platform r)
        (resolve_format_selector env self platform r).
Proof.
  intros self platform r.
  unfold resolve_format_selector, check_premium_formats.
  apply alike_bind; [|intros fs; apply alike_ret].
  destruct (_ && _ && _); [|apply alike_ret].
  apply alike_bind; [|intros premium; alike_tac].
  apply alike_bind; [apply alike_log|intros _].
  apply alike_bind; [apply alike_run_command|intros [success output]].
  alike_tac.
Qed.

Lemma alike_resolve_output_dir : forall self r,
  alike (resolve_output_dir env self r) (resolve_output_dir env self r).
Proof.
  intros self r. unfold resolve_output_dir, get_video_info.
  apply alike_bind; [apply alike_log|intros _].
  apply alike_bind.
  - apply alike_bind; [apply alike_run_command|intros [success output]].
    alike_tac.
  - intros info. alike_tac.
Qed.

Lemma alike_run_download : forall cmd,
  alike (run_download env cmd) (run_download env cmd).
Proof. intros cmd. unfold run_download. alike_tac. Qed.

Lemma alike_check_po_token_error : forall platform error_output,
  alike (check_po_token_error env platform error_output)
        (check_po_token_error env platform error_output).
Proof.
  intros platform error_output.
  unfold check_po_token_error, _check_pot_plugin_installed. alike_tac.
Qed.

Lemma alike_handler : forall (again1 again2 : Request -> M World bool)
                             platform r fs rc stderr mode1 mode2,
  (forall r', alike (again1 (with_pot_provider_mode r' mode1))
                    (again2 (with_pot_provider_mode r' mode2))) ->
  alike (on_called_process_error env again1 platform
           (with_pot_provider_mode r mode1) fs rc stderr)
        (on_called_process_error env again2 platform
           (with_pot_provider_mode r mode2) fs rc stderr).
Proof.
  intros again1 again2 platform r fs rc stderr mode1 mode2 H.
  unfold on_called_process_error.
  cbn [with_pot_provider_mode try_fallback_clients youtube_client try_sabr].
  apply alike_bind; [apply alike_check_po_token_error|intros po].
  apply alike_bind; [alike_tac|intros _].
  destruct (_ && _ && _); [|alike_tac].
  apply alike_bind.
  - apply alike_try_clients. intros c.
    apply alike_bind; [apply alike_log|intros _].
    apply (H (fallback_request r fs c)).
  - intros [|]; [apply alike_ret|].
    destruct (_ && _); [|alike_tac].
    apply alike_bind; [apply alike_log|intros _].
    apply (H (sabr_request r fs)).
Qed.

Lemma alike_download_video : forall fuel self r mode1 mode2,
  alike (download_video env fuel self (with_pot_provider_mode r mode1))
        (download_video env fuel self (with_pot_provider_mode r mode2)).
Proof.
  induction fuel as [|fuel IH]; intros self r mode1 mode2;
    cbn [download_video]; [apply alike_out_of_fuel|].
  cbn [with_pot_provider_mode url pot_provider_mode].
  apply alike_bind; [apply alike_log|intros _].
  apply alike_bind; [apply alike_validate_youtube_requirements|intros _].
  apply alike_bind.
  { eapply silent_alike; apply silent_validate_pot_provider. }
  intros _.
  apply alike_bind; [apply (alike_resolve_format_selector self _ r)|intros fs].
  apply alike_bind; [apply (alike_resolve_output_dir self r)|intros dir].
  apply alike_bind; [apply alike_run_download|intros o].
  destruct o as [out|rc stderr|]; [alike_tac| |alike_tac].
  apply alike_handler. intros r'. apply IH.
Qed.

End Mode.
